(** * PII detection and redaction engine: a shallow embedding

    The repository holds two scripts, [detector_full_harish_madhavan_j_u.py]
    (classes [PersonalInfoFinder] and [PersonalInfoHider]) and [sol1.2.py]
    (classes [PIIDetector] and [PIIRedactor]).  Each one classifies a flat
    record (a Python [dict] from field names to scalars) as PII-bearing or
    not, and masks the sensitive fields of a PII-bearing record.

    Modelling choices.
    - Text is Rocq's [string]; a character is a code point below 256
      (the Latin-1 range), classified as CPython classifies it.
    - A record is an association list in insertion order; a well-formed
      [dict] has pairwise distinct keys ([Dict.wf]).
    - Scalars are [None], booleans, integers and text.  Numbers with a
      fractional part are left out (their text form is a floating-point
      matter).
    - Python's [re] is embedded as a small matcher over a regular-expression
      syntax with the zero-width assertions the scripts use.
    - A call that can raise returns a [result]. *)

From Stdlib Require Import ZArith NArith String Ascii List Bool Lia DecimalString.
Import ListNotations.
Open Scope string_scope.

(** ** Characters *)

Module Char.

Definition code (c : ascii) : N := N_of_ascii c.

Definition between (lo hi : N) (c : ascii) : bool :=
  (lo <=? code c)%N && (code c <=? hi)%N.

Definition at_code (n : N) (c : ascii) : bool := (code c =? n)%N.

(** [\d]: the decimal digits. *)
Definition is_digit (c : ascii) : bool := between 48 57 c.

Definition is_upper_az (c : ascii) : bool := between 65 90 c.
Definition is_lower_az (c : ascii) : bool := between 97 122 c.

(** [str.isspace], [str.strip], [str.split] and [\s]. *)
Definition is_space (c : ascii) : bool :=
  between 9 13 c || between 28 32 c || at_code 133 c || at_code 160 c.

(** [str.isalpha] on one character. *)
Definition is_alpha (c : ascii) : bool :=
  is_upper_az c || is_lower_az c
  || at_code 170 c || at_code 181 c || at_code 186 c
  || between 192 214 c || between 216 246 c || between 248 255 c.

(** [\w]: alphanumeric characters and the underscore. *)
Definition is_word (c : ascii) : bool :=
  is_alpha c || is_digit c || at_code 95 c
  || at_code 178 c || at_code 179 c || at_code 185 c || between 188 190 c.

(** [str.lower] on one character. *)
Definition lower (c : ascii) : ascii :=
  if is_upper_az c || between 192 214 c || between 216 222 c
  then ascii_of_N (code c + 32)
  else c.

End Char.

(** ** Python's string operations *)

Module Str.

Fixpoint take (n : nat) (s : string) : string :=
  match n, s with
  | S n', String c s' => String c (take n' s')
  | _, _ => ""
  end.

Fixpoint drop (n : nat) (s : string) : string :=
  match n, s with
  | S n', String _ s' => drop n' s'
  | _, _ => s
  end.

(** [s[-n:]] for a positive literal [n]. *)
Definition last (n : nat) (s : string) : string :=
  drop (String.length s - n) s.

(** [c * n]: no character at all when [n] is negative. *)
Definition repeat (c : ascii) (n : Z) : string :=
  Nat.iter (Z.to_nat n) (String c) "".

(** [len(s) - k] is an integer and may be negative. *)
Definition len_minus (s : string) (k : Z) : Z :=
  (Z.of_nat (String.length s) - k)%Z.

Fixpoint all (p : ascii -> bool) (s : string) : bool :=
  match s with
  | "" => true
  | String c s' => p c && all p s'
  end.

(** [c in s]. *)
Fixpoint contains (c : ascii) (s : string) : bool :=
  match s with
  | "" => false
  | String d s' => Ascii.eqb d c || contains c s'
  end.

Fixpoint lstrip (s : string) : string :=
  match s with
  | String c s' => if Char.is_space c then lstrip s' else s
  | "" => ""
  end.

Fixpoint rstrip (s : string) : string :=
  match s with
  | "" => ""
  | String c s' =>
      match rstrip s' with
      | "" => if Char.is_space c then "" else String c ""
      | r => String c r
      end
  end.

(** [s.strip()]. *)
Definition strip (s : string) : string := rstrip (lstrip s).

(** [s.lower()]. *)
Fixpoint lower (s : string) : string :=
  match s with
  | "" => ""
  | String c s' => String (Char.lower c) (lower s')
  end.

(** [s.isalpha()]: false on the empty string. *)
Definition isalpha (s : string) : bool :=
  match s with
  | "" => false
  | _ => all Char.is_alpha s
  end.

(** [s.split(c)]: the pieces between the occurrences of [c]; never an
    empty list. *)
Fixpoint split (c : ascii) (s : string) : list string :=
  match s with
  | "" => [""]
  | String d s' =>
      if Ascii.eqb d c then "" :: split c s'
      else match split c s' with
           | p :: ps => String d p :: ps
           | [] => [String d ""]
           end
  end.

(** [s.split(c, 1)]: cut at the first occurrence of [c] only. *)
Fixpoint split1 (c : ascii) (s : string) : list string :=
  match s with
  | "" => [""]
  | String d s' =>
      if Ascii.eqb d c then [""; s']
      else match split1 c s' with
           | p :: ps => String d p :: ps
           | [] => [String d ""]
           end
  end.

(** [s.split()]: the maximal runs of characters that are not spaces. *)
Fixpoint words_aux (cur : string) (s : string) : list string :=
  match s with
  | "" => match cur with "" => [] | _ => [cur] end
  | String c s' =>
      if Char.is_space c
      then match cur with
           | "" => words_aux "" s'
           | _ => cur :: words_aux "" s'
           end
      else words_aux (cur ++ String c "") s'
  end.

Definition words (s : string) : list string := words_aux "" s.

(** Membership in a list of strings ([x in [...]], [x in {...}]). *)
Definition mem (x : string) (l : list string) : bool :=
  existsb (String.eqb x) l.

End Str.

(** ** Regular expressions, as the [re] module matches them *)

Module Re.

Inductive t : Type :=
| Eps
| Chr (p : ascii -> bool)   (* one character of a class *)
| Seq (a b : t)
| Alt (a b : t)
| Star (a : t)
| Bol                        (* ^ *)
| Eol                        (* $ *)
| WordB.                     (* \b *)

(** [a+], [a?], [a{n}], [a{n,}] *)
Definition Plus (a : t) : t := Seq a (Star a).
Definition Opt (a : t) : t := Alt a Eps.
Fixpoint Rep (n : nat) (a : t) : t :=
  match n with
  | O => Eps
  | S n' => Seq a (Rep n' a)
  end.
Definition AtLeast (n : nat) (a : t) : t := Seq (Rep n a) (Star a).

(** The concatenation of the items of a pattern, left to right. *)
Definition cat (items : list t) : t := fold_right Seq Eps items.

(** [[...]] classes written with the characters they list. *)
Definition one_of (chars : string) (c : ascii) : bool :=
  Str.contains c chars.
Definition lit (c : ascii) : t := Chr (Ascii.eqb c).

(** A position in the subject: the character before it, if any, and the
    text from it on. *)
Record pos : Type := Pos { prev : option ascii; rest : string }.

Definition word_before (p : pos) : bool :=
  match prev p with Some c => Char.is_word c | None => false end.

Definition word_after (p : pos) : bool :=
  match rest p with String c _ => Char.is_word c | "" => false end.

(** [^] holds at the start of the subject; [$] at its end and before a
    final newline; [\b] where exactly one neighbour is a word character. *)
Definition at_bol (p : pos) : bool :=
  match prev p with None => true | Some _ => false end.

Definition at_eol (p : pos) : bool :=
  match rest p with
  | "" => true
  | String c "" => Char.at_code 10 c
  | _ => false
  end.

Definition at_boundary (p : pos) : bool :=
  xorb (word_before p) (word_after p).

Definition guard (b : bool) (p : pos) : list pos :=
  if b then [p] else [].

Definition step (cls : ascii -> bool) (p : pos) : list pos :=
  match rest p with
  | String c s' => if cls c then [Pos (Some c) s'] else []
  | "" => []
  end.

(** Zero or more rounds of [f]; [fuel] bounds the number of rounds. *)
Fixpoint iterate (f : pos -> list pos) (fuel : nat) (p : pos) : list pos :=
  p :: match fuel with
       | O => []
       | S n => flat_map (iterate f n) (f p)
       end.

(** Every position at which a match of the pattern begun at [p] can end.
    The backtracking matcher of [re] finds a match exactly when one of
    them suits it.  A starred pattern of this program consumes a character
    in each round, so as many rounds as there are characters left are
    enough. *)
Fixpoint run (r : t) (p : pos) : list pos :=
  match r with
  | Eps => [p]
  | Chr cls => step cls p
  | Seq a b => flat_map (run b) (run a p)
  | Alt a b => (run a p ++ run b p)%list
  | Star a => iterate (run a) (String.length (rest p)) p
  | Bol => guard (at_bol p) p
  | Eol => guard (at_eol p) p
  | WordB => guard (at_boundary p) p
  end.

Definition at_end (p : pos) : bool :=
  match rest p with "" => true | _ => false end.

(** [pattern.fullmatch(s)] is not [None]. *)
Definition fullmatch (r : t) (s : string) : bool :=
  existsb at_end (run r (Pos None s)).

Definition match_at (r : t) (p : pos) : bool :=
  match run r p with [] => false | _ => true end.

Fixpoint search_from (r : t) (pv : option ascii) (s : string) : bool :=
  match_at r (Pos pv s) ||
  match s with
  | "" => false
  | String c s' => search_from r (Some c) s'
  end.

(** [pattern.search(s)] is not [None]: a match begins somewhere. *)
Definition search (r : t) (s : string) : bool := search_from r None s.

End Re.

(** ** Scalars, dictionaries and exceptions *)

Inductive value : Type :=
| VNone
| VBool (b : bool)
| VInt (n : Z)
| VStr (s : string).

(** [bool(v)]: what [not v] and [if v] look at. *)
Definition truthy (v : value) : bool :=
  match v with
  | VNone => false
  | VBool b => b
  | VInt n => negb (n =? 0)%Z
  | VStr s => negb (s =? "")
  end.

(** [v is None] *)
Definition is_none (v : value) : bool :=
  match v with VNone => true | _ => false end.

(** [str(v)] *)
Definition py_str (v : value) : string :=
  match v with
  | VNone => "None"
  | VBool true => "True"
  | VBool false => "False"
  | VInt n => NilEmpty.string_of_int (Z.to_int n)
  | VStr s => s
  end.

Module Dict.

Definition t (V : Type) : Type := list (string * V).

Definition keys {V} (d : t V) : list string := map fst d.
Definition values {V} (d : t V) : list V := map snd d.

(** The keys of a [dict] are pairwise distinct. *)
Definition wf {V} (d : t V) : Prop := NoDup (keys d).

Fixpoint get {V} (k : string) (d : t V) : option V :=
  match d with
  | [] => None
  | (k', v) :: d' => if k' =? k then Some v else get k d'
  end.

(** [d[k] = v]: an existing key keeps its place, a new one goes last. *)
Fixpoint set {V} (k : string) (v : V) (d : t V) : t V :=
  match d with
  | [] => [(k, v)]
  | (k', v') :: d' =>
      if k' =? k then (k', v) :: d' else (k', v') :: set k v d'
  end.

End Dict.

(** A record: field names to scalars. *)
Definition record : Type := Dict.t value.

(** [record.get(k)]: [None] for a missing key. *)
Definition record_get (k : string) (r : record) : value :=
  match Dict.get k r with Some v => v | None => VNone end.

(** A [set] of strings, for its [add] and [len]. *)
Module StrSet.
Definition t : Type := list string.
Definition add (x : string) (s : t) : t :=
  if Str.mem x s then s else (s ++ [x])%list.
Definition len (s : t) : nat := List.length s.
End StrSet.

Inductive exn : Type := IndexError | ValueError.

Inductive result (A : Type) : Type :=
| Ok (a : A)
| Raise (e : exn).
Arguments Ok {A} a.
Arguments Raise {A} e.

Definition bind {A B} (m : result A) (k : A -> result B) : result B :=
  match m with
  | Ok a => k a
  | Raise e => Raise e
  end.

Notation "x <- m ;; k" := (bind m (fun x => k))
  (at level 61, m at next level, right associativity).

(** [for item in items: acc = body(acc, item)], stopping at the first
    exception. *)
Fixpoint for_each {A S} (body : S -> A -> result S) (items : list A) (acc : S)
  : result S :=
  match items with
  | [] => Ok acc
  | x :: rest => acc' <- body acc x ;; for_each body rest acc'
  end.

(** [any(d.values())] *)
Definition any_value (d : Dict.t bool) : bool :=
  existsb (fun b => b) (Dict.values d).

(** The truth value of [flags.get(field)] and of [flags.get(field, False)]. *)
Definition flagged (field : string) (flags : Dict.t bool) : bool :=
  match Dict.get field flags with Some b => b | None => false end.

(** The character classes of the patterns. *)
Definition digit : Re.t := Re.Chr Char.is_digit.
Definition space : Re.t := Re.Chr Char.is_space.
Definition upper_az : Re.t := Re.Chr Char.is_upper_az.

(** [[A-Za-z0-9._%+-]], [[A-Za-z0-9.-]], [[A-Za-z]] and [[A-Z|a-z]] *)
Definition alnum_az (c : ascii) : bool :=
  Char.is_upper_az c || Char.is_lower_az c || Char.is_digit c.
Definition local_part : Re.t :=
  Re.Chr (fun c => alnum_az c || Re.one_of "._%+-" c).
Definition domain_part : Re.t :=
  Re.Chr (fun c => alnum_az c || Re.one_of ".-" c).
Definition letter_az : Re.t :=
  Re.Chr (fun c => Char.is_upper_az c || Char.is_lower_az c).
Definition letter_or_bar : Re.t :=
  Re.Chr (fun c => Char.is_upper_az c || Re.one_of "|" c || Char.is_lower_az c).
(** [[\w\d]] *)
Definition word_or_digit : Re.t :=
  Re.Chr (fun c => Char.is_word c || Char.is_digit c).

(** ** detector_full_harish_madhavan_j_u.py *)

Module PersonalInfoFinder.

(** [^\d{10}$] *)
Definition phone_re : Re.t := Re.cat [Re.Bol; Re.Rep 10 digit; Re.Eol].

(** [^\d{4}\s?\d{4}\s?\d{4}$] *)
Definition aadhar_re : Re.t :=
  Re.cat [Re.Bol; Re.Rep 4 digit; Re.Opt space; Re.Rep 4 digit;
          Re.Opt space; Re.Rep 4 digit; Re.Eol].

(** [^[A-Z]\d{7}$] *)
Definition passport_re : Re.t := Re.cat [Re.Bol; upper_az; Re.Rep 7 digit; Re.Eol].

(** [[A-Za-z0-9._%+-]+@[A-Za-z0-9.-]+\.[A-Za-z]{2,}] *)
Definition email_re : Re.t :=
  Re.cat [Re.Plus local_part; Re.lit "@"; Re.Plus domain_part;
          Re.lit "."; Re.AtLeast 2 letter_az].

Definition upi_domains : list string :=
  [ "abcdicici"; "apl"; "yapl"; "rapl"; "abfspay"; "bpunity"; "jarunity";
    "axisb"; "yescred"; "yescurie"; "yesfam"; "fifederal"; "fkaxis";
    "freoicici"; "okaxis"; "okhdfcbank"; "okicici"; "oksbi"; "yesg";
    "inhdfc"; "jupiteraxis"; "goaxb"; "kbaxis"; "kphdfc"; "ikwik";
    "mvhdfc"; "naviaxis"; "niyoicici"; "oneyes"; "paytm"; "ptyes";
    "ptaxis"; "pthdfc"; "ptsbi"; "ybl"; "ibl"; "axl"; "yespop"; "rmrbl";
    "pingpay"; "seyes"; "shriramhdfcbank"; "superyes"; "tapicici";
    "timecosmos"; "axisbank"; "yestp"; "idfcbank"; "waicici"; "icici";
    "waaxis"; "wahdfcbank"; "wasbi" ].

(** [group_fields] *)
Definition names : list string := ["name"; "first_name"; "last_name"].
Definition emails : list string := ["email"].
Definition addresses : list string := ["address"; "city"; "pin_code"; "state"].

(** The body of the loop of [check_single] on one item: the verdict it
    stores in [found[field]], or [None] when it stores nothing. *)
Definition check_field (field : string) (v : value) : option bool :=
  if negb (truthy v) then None
  else
    let text := Str.strip (py_str v) in
    if (field =? "phone") || Re.fullmatch phone_re text then Some true
    else if (field =? "aadhar") || Re.fullmatch aadhar_re text then Some true
    else if (field =? "passport") || Re.fullmatch passport_re text then Some true
    else if (field =? "email") || Re.fullmatch email_re text then Some true
    else if Str.contains "@" text then
      match Str.split "@" text with
      | [_; domain] =>
          if Str.mem (Str.lower domain) upi_domains then Some true else None
      | _ => None
      end
    else Some false.

Definition check_single (r : record) : Dict.t bool :=
  fold_left
    (fun found item =>
       match check_field (fst item) (snd item) with
       | Some b => Dict.set (fst item) b found
       | None => found
       end)
    r [].

Definition _is_full_name (name : value) : bool :=
  let parts := Str.words (Str.strip (py_str name)) in
  (2 <=? List.length parts)%nat && forallb Str.isalpha parts.

Definition _has_both_names (r : record) : bool :=
  truthy (record_get "first_name" r) && truthy (record_get "last_name" r).

Definition _is_full_address (r : record) : bool :=
  let count :=
    List.length
      (filter (fun f => truthy (record_get f r)) ["address"; "city"; "pin_code"]) in
  (2 <=? count)%nat.

(** The body of the loop of [check_combined]. *)
Definition add_group (r : record) (groups : StrSet.t) (item : string * value)
  : StrSet.t :=
  let (field, v) := item in
  if negb (truthy v) || (Str.strip (py_str v) =? "") then groups
  else if Str.mem field names then
    if (field =? "name") && _is_full_name v then StrSet.add "name" groups
    else if Str.mem field ["first_name"; "last_name"] && _has_both_names r
    then StrSet.add "name" groups
    else groups
  else if Str.mem field emails then
    if Re.fullmatch email_re (py_str v) then StrSet.add "email" groups
    else groups
  else if Str.mem field addresses then
    if _is_full_address r then StrSet.add "address" groups else groups
  else groups.

Definition check_combined (r : record) : bool :=
  (2 <=? StrSet.len (fold_left (add_group r) r []))%nat.

Definition detect_pii (r : record) : bool :=
  if any_value (check_single r) then true else check_combined r.

End PersonalInfoFinder.

Module PersonalInfoHider.
Import PersonalInfoFinder.

(** [user[:2] + "X" * (len(user) - 2) + "@" + domain] *)
Definition mask_handle (user domain : string) : string :=
  Str.take 2 user ++ Str.repeat "X" (Str.len_minus user 2) ++ "@" ++ domain.

Definition hide_value (field : string) (v : value) : result value :=
  if negb (truthy v) then Ok v
  else
    let text := Str.strip (py_str v) in
    (* what follows the two [@] statements *)
    let by_field_name : result value :=
      if Str.mem field ["name"; "first_name"; "last_name"] then
        match text with
        | String c _ =>
            Ok (VStr (String c "" ++ Str.repeat "X" (Str.len_minus text 1)))
        | "" => Raise IndexError
        end
      else if Str.mem field ["address"; "city"; "pin_code"; "state"] then
        Ok (VStr "[REDACTED_ADDRESS]")
      else Ok v in
    if (field =? "phone") || Re.fullmatch phone_re text then
      Ok (VStr (Str.take 2 text ++ Str.repeat "X" (Str.len_minus text 4)
                ++ Str.last 2 text))
    else if (field =? "aadhar") || Re.fullmatch aadhar_re text then
      Ok (VStr ("XXXX XXXX " ++ Str.last 4 text))
    else if field =? "passport" then Ok (VStr "XXXXXXX")
    else if Re.fullmatch email_re text then
      match Str.split1 "@" text with
      | [user; domain] => Ok (VStr (mask_handle user domain))
      | _ => Raise ValueError
      end
    else if Str.contains "@" text then
      match Str.split1 "@" text with
      | [user; domain] =>
          if Str.mem (Str.lower domain) upi_domains
          then Ok (VStr (mask_handle user domain))
          else by_field_name
      | _ => Raise ValueError
      end
    else by_field_name.

(** The body of the loop of [hide_record]. *)
Definition hide_item (r : record) (single_flags : Dict.t bool)
    (hidden : record) (item : string * value) : result record :=
  let (field, v) := item in
  if flagged field single_flags || check_combined r then
    v' <- hide_value field v ;; Ok (Dict.set field v' hidden)
  else Ok (Dict.set field v hidden).

Definition hide_record (r : record) (has_pii : bool) : result record :=
  if negb has_pii then Ok r
  else
    let single_flags := check_single r in
    for_each (hide_item r single_flags) r [].

End PersonalInfoHider.

(** ** sol1.2.py *)

(** [xs[i]]: [IndexError] past the end. *)
Definition index {A} (xs : list A) (i : nat) : result A :=
  match nth_error xs i with
  | Some x => Ok x
  | None => Raise IndexError
  end.

(** [s[0]] *)
Definition first_char (s : string) : result string :=
  match s with
  | String c _ => Ok (String c "")
  | "" => Raise IndexError
  end.

Module PIIDetector.

(** [\\b\\d{10}\\b] *)
Definition phone_pattern : Re.t := Re.cat [Re.WordB; Re.Rep 10 digit; Re.WordB].

(** [\\b\\d{4}\\s*\\d{4}\\s*\\d{4}\\b] *)
Definition aadhar_pattern : Re.t :=
  Re.cat [Re.WordB; Re.Rep 4 digit; Re.Star space; Re.Rep 4 digit;
          Re.Star space; Re.Rep 4 digit; Re.WordB].

(** [\\b[A-Z]\\d{7}\\b] *)
Definition passport_pattern : Re.t :=
  Re.cat [Re.WordB; upper_az; Re.Rep 7 digit; Re.WordB].

(** [\\b[\\w\\d]+@[\\w\\d]+\\b] *)
Definition upi_pattern : Re.t :=
  Re.cat [Re.WordB; Re.Plus word_or_digit; Re.lit "@"; Re.Plus word_or_digit;
          Re.WordB].

(** [\\b[A-Za-z0-9._%+-]+@[A-Za-z0-9.-]+\\.[A-Z|a-z]{2,}\\b] *)
Definition email_pattern : Re.t :=
  Re.cat [Re.WordB; Re.Plus local_part; Re.lit "@"; Re.Plus domain_part;
          Re.lit "."; Re.AtLeast 2 letter_or_bar; Re.WordB].

(** [combinatorial_fields] *)
Definition name_fields : list string := ["name"; "first_name"; "last_name"].
Definition email_fields : list string := ["email"].
Definition address_fields : list string := ["address"; "city"; "pin_code"; "state"].

(** The body of the loop of [detect_standalone_pii] on one item: the
    verdict it stores in [pii_found[field]], or [None] when it stores
    nothing. *)
Definition standalone_field (field : string) (v : value) : option bool :=
  if is_none v then None
  else
    let value_str := py_str v in
    if (field =? "phone") || Re.search phone_pattern value_str then Some true
    else if (field =? "aadhar") || Re.search aadhar_pattern value_str then Some true
    else if (field =? "passport") || Re.search passport_pattern value_str then Some true
    else if (field =? "upi_id")
            || (Re.search upi_pattern value_str && Str.contains "@" value_str)
    then Some true
    else Some false.

Definition detect_standalone_pii (data : record) : Dict.t bool :=
  fold_left
    (fun pii_found item =>
       match standalone_field (fst item) (snd item) with
       | Some b => Dict.set (fst item) b pii_found
       | None => pii_found
       end)
    data [].

Definition _is_full_name (name : string) : bool :=
  let parts := Str.words (Str.strip name) in
  (2 <=? List.length parts)%nat && forallb Str.isalpha parts.

(** [v and str(v).strip()], as a condition. *)
Definition present (v : value) : bool :=
  truthy v && negb (Str.strip (py_str v) =? "").

Definition _has_both_names (data : record) : bool :=
  present (record_get "first_name" data) && present (record_get "last_name" data).

Definition _is_complete_address (data : record) : bool :=
  let address_components :=
    ((if present (record_get "address" data) then 1 else 0)
     + (if present (record_get "city" data) then 1 else 0)
     + (if present (record_get "pin_code" data) then 1 else 0))%nat in
  (2 <=? address_components)%nat.

(** The body of the loop of [detect_combinatorial_pii]. *)
Definition add_group (data : record) (present_groups : StrSet.t)
    (item : string * value) : StrSet.t :=
  let (field, v) := item in
  if is_none v || (Str.strip (py_str v) =? "") then present_groups
  else if Str.mem field name_fields then
    if (field =? "name") || _is_full_name (py_str v)
    then StrSet.add "name" present_groups
    else if Str.mem field ["first_name"; "last_name"] then
      if _has_both_names data then StrSet.add "name" present_groups
      else present_groups
    else present_groups
  else if Str.mem field email_fields then
    if Re.search email_pattern (py_str v) then StrSet.add "email" present_groups
    else present_groups
  else if Str.mem field address_fields then
    if _is_complete_address data then StrSet.add "address" present_groups
    else present_groups
  else present_groups.

Definition detect_combinatorial_pii (data : record) : bool :=
  (2 <=? StrSet.len (fold_left (add_group data) data []))%nat.

Definition detect_pii (data : record) : bool :=
  let standalone_results := detect_standalone_pii data in
  if any_value standalone_results then true
  else detect_combinatorial_pii data.

End PIIDetector.

Module PIIRedactor.
Import PIIDetector.

Definition redact_value (field : string) (v : value) : result value :=
  if is_none v then Ok v
  else
    let value_str := py_str v in
    if (field =? "phone") || Re.search phone_pattern value_str then
      if (10 <=? String.length value_str)%nat then
        Ok (VStr (Str.take 2 value_str
                  ++ Str.repeat "X" (Str.len_minus value_str 4)
                  ++ Str.last 2 value_str))
      else Ok v
    else if Str.contains "@" value_str && Re.search email_pattern value_str then
      let parts := Str.split "@" value_str in
      user <- index parts 0 ;;
      if (2 <? String.length user)%nat then
        let masked_user := Str.take 2 user ++ Str.repeat "X" (Str.len_minus user 2) in
        domain <- index parts 1 ;;
        Ok (VStr (masked_user ++ "@" ++ domain))
      else Ok v
    else if Str.mem field ["name"; "first_name"; "last_name"] then
      if (1 <? String.length value_str)%nat then
        c <- first_char value_str ;;
        Ok (VStr (c ++ Str.repeat "X" (Str.len_minus value_str 1)))
      else Ok v
    else if field =? "address" then Ok (VStr "[REDACTED_ADDRESS]")
    else if field =? "aadhar" then Ok (VStr "[REDACTED_AADHAR]")
    else if field =? "passport" then Ok (VStr "[REDACTED_PASSPORT]")
    else if field =? "upi_id" then Ok (VStr "[REDACTED_UPI]")
    else Ok v.

(** The body of the loop of [redact_record]. *)
Definition redact_item (data : record) (standalone_pii : Dict.t bool)
    (redacted_data : record) (item : string * value) : result record :=
  let (field, v) := item in
  if flagged field standalone_pii then
    v' <- redact_value field v ;; Ok (Dict.set field v' redacted_data)
  else if Str.mem field name_fields || Str.mem field email_fields
          || Str.mem field address_fields then
    if detect_combinatorial_pii data then
      v' <- redact_value field v ;; Ok (Dict.set field v' redacted_data)
    else Ok (Dict.set field v redacted_data)
  else Ok (Dict.set field v redacted_data).

Definition redact_record (data : record) (is_pii : bool) : result record :=
  if negb is_pii then Ok data
  else
    let standalone_pii := PIIDetector.detect_standalone_pii data in
    for_each (redact_item data standalone_pii) data [].

End PIIRedactor.

(** ** The payment-handle rule, in the words of the specification *)

Module Spec.

(** How many times [c] occurs in [s]. *)
Fixpoint count (c : ascii) (s : string) : nat :=
  match s with
  | "" => 0
  | String d s' => (if Ascii.eqb d c then 1 else 0) + count c s'
  end.

(** The text after the first [c] of [s]. *)
Fixpoint after (c : ascii) (s : string) : string :=
  match s with
  | "" => ""
  | String d s' => if Ascii.eqb d c then s' else after c s'
  end.

(** Exactly one [@], and the text after it, in lower case, is one of the
    listed provider suffixes. *)
Definition payment_handle (text : string) : bool :=
  (count "@" text =? 1)%nat
  && Str.mem (Str.lower (after "@" text)) PersonalInfoFinder.upi_domains.

End Spec.

(** A value that is text, not empty, and blank once trimmed. *)
Definition blank_text (v : value) : bool :=
  truthy v && (Str.strip (py_str v) =? "").

(** ** Records used below *)

(** A blank [name] next to a complete e-mail and address. *)
Definition blank_name_record : record :=
  [("name", VStr "   "); ("email", VStr "a@b.co");
   ("address", VStr "12 Elm St"); ("city", VStr "Springfield")].

(** A passport number under a name that says nothing. *)
Definition unnamed_passport_record : record := [("doc", VStr "A1234567")].

(** A handle whose suffix is not a listed provider. *)
Definition unlisted_handle_record : record := [("note", VStr "a@b")].

Definition upi_id_record : record := [("upi_id", VStr "abc")].

Definition aadhar_record : record := [("aadhar", VStr "1234 5678 9012")].

Definition blank_phone_record : record := [("phone", VStr "   ")].

Definition empty_phone_record : record := [("phone", VStr "")].

Definition blank_last_name_record : record :=
  [("first_name", VStr "John"); ("last_name", VStr "  ");
   ("email", VStr "a@b.co")].

Definition no_last_name_record : record :=
  [("first_name", VStr "John"); ("email", VStr "a@b.co")].

Definition zero_phone_record : record := [("phone", VInt 0)].

Definition phone_record : record := [("phone", VStr "9876543210")].

(** [q] is reached from [p] by reading some text. *)
Definition ahead (p q : Re.pos) : Prop :=
  exists w, Re.rest p = w ++ Re.rest q.

(** ** Shapes of text *)

(** [n] decimal digits. *)
Definition digits (n : nat) (s : string) : Prop :=
  String.length s = n /\ Str.all Char.is_digit s = true.

(** Nothing, or one space character. *)
Definition space_or_none (s : string) : Prop :=
  s = "" \/ exists c, Char.is_space c = true /\ s = String c "".

(** From any position before [s], the pattern can end before [s']. *)
Definition reaches (r : Re.t) (s s' : string) : Prop :=
  forall pv, exists pv', In (Re.Pos pv' s') (Re.run r (Re.Pos pv s)).

(** The classes of the e-mail pattern, by name. *)
Definition is_local_char (c : ascii) : bool :=
  alnum_az c || Re.one_of "._%+-" c.
Definition is_domain_char (c : ascii) : bool :=
  alnum_az c || Re.one_of ".-" c.
Definition is_letter_az (c : ascii) : bool :=
  Char.is_upper_az c || Char.is_lower_az c.

(** A record with nothing personal in it. *)
Definition plain_record : record :=
  [("product", VStr "blue kettle"); ("quantity", VInt 3)].

(** ** The groups of the combinatorial checks, one by one *)

Definition two_of_three (a b c : bool) : bool :=
  (a && b) || (a && c) || (b && c).

(** The values the loop of [check_combined] does not skip. *)
Definition finder_counts (v : value) : bool :=
  truthy v && negb (Str.strip (py_str v) =? "").

(** The group an item adds in [check_combined], if any. *)
Definition finder_group_of (r : record) (item : string * value) : option string :=
  let (field, v) := item in
  if negb (finder_counts v) then None
  else if (field =? "name") && PersonalInfoFinder._is_full_name v then Some "name"
  else if Str.mem field ["first_name"; "last_name"]
          && PersonalInfoFinder._has_both_names r then Some "name"
  else if (field =? "email")
          && Re.fullmatch PersonalInfoFinder.email_re (py_str v) then Some "email"
  else if Str.mem field PersonalInfoFinder.addresses
          && PersonalInfoFinder._is_full_address r then Some "address"
  else None.

Definition has_group (group_of : string * value -> option string)
    (group : string) (r : record) : bool :=
  existsb
    (fun item =>
       match group_of item with
       | Some g => g =? group
       | None => false
       end) r.

(** The values the loop of [detect_combinatorial_pii] does not skip. *)
Definition detector_counts (v : value) : bool :=
  negb (is_none v) && negb (Str.strip (py_str v) =? "").

(** The group an item adds in [detect_combinatorial_pii], if any. *)
Definition detector_group_of (data : record) (item : string * value)
  : option string :=
  let (field, v) := item in
  if negb (detector_counts v) then None
  else if (field =? "name")
          || (Str.mem field PIIDetector.name_fields
              && PIIDetector._is_full_name (py_str v)) then Some "name"
  else if Str.mem field ["first_name"; "last_name"]
          && PIIDetector._has_both_names data then Some "name"
  else if (field =? "email")
          && Re.search PIIDetector.email_pattern (py_str v) then Some "email"
  else if Str.mem field PIIDetector.address_fields
          && PIIDetector._is_complete_address data then Some "address"
  else None.

(** The character before the position that follows [w], read from a
    position whose previous character is [pv]. *)
Fixpoint last_prev (pv : option ascii) (w : string) : option ascii :=
  match w with
  | "" => pv
  | String c w' => last_prev (Some c) w'
  end.

(** The pattern reads [w], whatever comes before and after it. *)
Definition reads (r : Re.t) (w : string) : Prop :=
  forall pv s, In (Re.Pos (last_prev pv w) s) (Re.run r (Re.Pos pv (w ++ s))).

(** ** The text handed to [json.loads] and the name of the output file *)

(** The double quote character. *)
Definition dquote : ascii := "034"%char.

(** [s.startswith(c)] and [s.endswith(c)] for a one-character [c]. *)
Definition starts_with (c : ascii) (s : string) : bool :=
  match s with
  | String d _ => Ascii.eqb d c
  | "" => false
  end.

Fixpoint ends_with (c : ascii) (s : string) : bool :=
  match s with
  | "" => false
  | String d "" => Ascii.eqb d c
  | String _ s' => ends_with c s'
  end.

(** [s.startswith(old)] *)
Fixpoint has_prefix (old s : string) : bool :=
  match old with
  | "" => true
  | String a old' =>
      match s with
      | String b s' => Ascii.eqb a b && has_prefix old' s'
      | "" => false
      end
  end.

(** [s[1:-1]] *)
Definition slice_1_m1 (s : string) : string :=
  Str.take (String.length s - 2) (Str.drop 1 s).

(** [s.replace(old, new)] for a non-empty [old]: the occurrences of [old]
    are taken from left to right and do not overlap; [skip] characters of
    an occurrence are still to be passed. *)
Fixpoint replace_from (old new : string) (skip : nat) (s : string) : string :=
  match s with
  | "" => ""
  | String c s' =>
      match skip with
      | S k => replace_from old new k s'
      | O =>
          if has_prefix old s
          then new ++ replace_from old new (String.length old - 1) s'
          else String c (replace_from old new 0 s')
      end
  end.

Definition replace (old new s : string) : string := replace_from old new 0 s.

(** [process_file], from the cell of the JSON column to the text given to
    [json.loads]; [None] when the row is skipped for want of JSON data. *)
Definition process_file_json_text (cell : string) : option string :=
  let json_data := Str.strip cell in
  if json_data =? "" then None
  else
    let json_data :=
      if starts_with dquote json_data && ends_with dquote json_data
      then slice_1_m1 json_data else json_data in
    Some (replace (String dquote (String dquote "")) (String dquote "") json_data).

(** [process_csv], likewise; it also wraps the text in braces. *)
Definition process_csv_json_text (cell : string) : option string :=
  if cell =? "" then None
  else
    let json_data := Str.strip cell in
    let json_data :=
      if starts_with dquote json_data && ends_with dquote json_data
      then slice_1_m1 json_data else json_data in
    let json_data :=
      replace (String dquote (String dquote "")) (String dquote "") json_data in
    let json_data :=
      if negb (starts_with "{" json_data) then "{" ++ json_data else json_data in
    let json_data :=
      if negb (ends_with "}" json_data) then json_data ++ "}" else json_data in
    Some json_data.

(** [input_file.replace(".csv", "_redacted.csv")], the output path of both
    scripts. *)
Definition output_name (input_file : string) : string :=
  replace ".csv" "_redacted.csv" input_file.

(** A field as a CSV writer quotes it: between double quotes, each double
    quote inside written twice. *)
Fixpoint double_quotes (s : string) : string :=
  match s with
  | "" => ""
  | String c s' =>
      if Ascii.eqb c dquote then String dquote (String dquote (double_quotes s'))
      else String c (double_quotes s')
  end.

Definition csv_quote (s : string) : string :=
  String dquote (double_quotes s ++ String dquote "").

(** [old] occurs in [s]. *)
Fixpoint occurs (old s : string) : bool :=
  has_prefix old s
  || match s with
     | "" => false
     | String _ s' => occurs old s'
     end.

(** ** Dictionaries *)

Section DictFacts.
Context {V : Type}.
Implicit Types (d : Dict.t V) (k : string) (v : V).

Lemma get_set_same k v d : Dict.get k (Dict.set k v d) = Some v.
Proof.
  induction d as [|[k' v'] d IH]; simpl.
  - now rewrite String.eqb_refl.
  - destruct (k' =? k) eqn:E; simpl; rewrite E; auto.
Qed.

Lemma get_set_other k k' v d :
  k' <> k -> Dict.get k (Dict.set k' v d) = Dict.get k d.
Proof.
  intros Hne. induction d as [|[k0 v0] d IH]; simpl.
  - destruct (k' =? k) eqn:E; auto. apply String.eqb_eq in E. contradiction.
  - destruct (k0 =? k') eqn:E; simpl.
    + apply String.eqb_eq in E. subst k0.
      destruct (k' =? k) eqn:E'; auto.
      apply String.eqb_eq in E'. contradiction.
    + now rewrite IH.
Qed.

Lemma get_absent k d : ~ In k (Dict.keys d) -> Dict.get k d = None.
Proof.
  induction d as [|[k' v'] d IH]; simpl; auto.
  intros Hn. destruct (k' =? k) eqn:E.
  - apply String.eqb_eq in E. tauto.
  - apply IH. tauto.
Qed.

Lemma get_member k v d : Dict.wf d -> In (k, v) d -> Dict.get k d = Some v.
Proof.
  unfold Dict.wf. induction d as [|[k' v'] d IH]; simpl; [tauto|].
  intros Hnd [Heq | Hin].
  - inversion Heq; subst. now rewrite String.eqb_refl.
  - inversion Hnd as [|? ? Hnotin Hnd']; subst.
    destruct (k' =? k) eqn:E.
    + apply String.eqb_eq in E. subst k'.
      exfalso. apply Hnotin. change k with (fst (k, v)). now apply in_map.
    + auto.
Qed.

Lemma get_in k v d : Dict.get k d = Some v -> In (k, v) d.
Proof.
  induction d as [|[k' v'] d IH]; simpl; [discriminate|].
  destruct (k' =? k) eqn:E; intros H.
  - apply String.eqb_eq in E. inversion H; subst. now left.
  - right. auto.
Qed.

Lemma keys_set_present k v d :
  In k (Dict.keys d) -> Dict.keys (Dict.set k v d) = Dict.keys d.
Proof.
  induction d as [|[k' v'] d IH]; simpl; [tauto|].
  intros [Heq | Hin].
  - subst. now rewrite String.eqb_refl.
  - destruct (k' =? k); simpl; auto. now rewrite IH.
Qed.

Lemma keys_set_fresh k v d :
  ~ In k (Dict.keys d) -> Dict.keys (Dict.set k v d) = (Dict.keys d ++ [k])%list.
Proof.
  induction d as [|[k' v'] d IH]; simpl; auto.
  intros Hn. destruct (k' =? k) eqn:E.
  - apply String.eqb_eq in E. tauto.
  - simpl. rewrite IH; tauto.
Qed.

End DictFacts.

(** A loop that stores a verdict per item: what ends up under a key. *)
Section Verdicts.
Variable verdict : string -> value -> option bool.

Lemma verdicts_get (r : record) (found : Dict.t bool) (k : string) :
  Dict.wf r ->
  Dict.get k
    (fold_left
       (fun found item =>
          match verdict (fst item) (snd item) with
          | Some b => Dict.set (fst item) b found
          | None => found
          end) r found) =
    match Dict.get k r with
    | Some v =>
        match verdict k v with
        | Some b => Some b
        | None => Dict.get k found
        end
    | None => Dict.get k found
    end.
Proof.
  unfold Dict.wf. revert found.
  induction r as [|[k' v'] r IH]; intros found Hnd; simpl; auto.
  inversion Hnd as [|? ? Hnotin Hnd']; subst.
  rewrite IH by assumption.
  destruct (k' =? k) eqn:E.
  - apply String.eqb_eq in E. subst k'.
    rewrite (get_absent k r Hnotin).
    destruct (verdict k v'); auto using get_set_same.
  - assert (k' <> k) by (intros ->; rewrite String.eqb_refl in E; discriminate).
    destruct (Dict.get k r) as [v|]; [destruct (verdict k v); auto|];
      destruct (verdict k' v'); auto using get_set_other.
Qed.

End Verdicts.

Lemma any_value_get (k : string) (d : Dict.t bool) :
  Dict.get k d = Some true -> any_value d = true.
Proof.
  intros H. apply get_in in H.
  unfold any_value. apply existsb_exists. exists true. split; auto.
  unfold Dict.values. change true with (snd (k, true)). now apply in_map.
Qed.

Lemma check_single_get (r : record) (k : string) :
  Dict.wf r ->
  Dict.get k (PersonalInfoFinder.check_single r) =
    match Dict.get k r with
    | Some v => PersonalInfoFinder.check_field k v
    | None => None
    end.
Proof.
  intros Hwf. unfold PersonalInfoFinder.check_single.
  rewrite verdicts_get by assumption. simpl.
  destruct (Dict.get k r) as [v|]; auto.
  now destruct (PersonalInfoFinder.check_field k v).
Qed.

Lemma detect_standalone_pii_get (data : record) (k : string) :
  Dict.wf data ->
  Dict.get k (PIIDetector.detect_standalone_pii data) =
    match Dict.get k data with
    | Some v => PIIDetector.standalone_field k v
    | None => None
    end.
Proof.
  intros Hwf. unfold PIIDetector.detect_standalone_pii.
  rewrite verdicts_get by assumption. simpl.
  destruct (Dict.get k data) as [v|]; auto.
  now destruct (PIIDetector.standalone_field k v).
Qed.

(** ** Strings *)

Section StrFacts.
Variable c : ascii.

Lemma contains_app (u w : string) :
  Str.contains c (u ++ String c w) = true.
Proof.
  induction u as [|d u IH]; simpl.
  - now rewrite Ascii.eqb_refl.
  - rewrite IH. apply orb_true_r.
Qed.

Lemma contains_count (s : string) :
  Str.contains c s = negb (Spec.count c s =? 0)%nat.
Proof.
  induction s as [|d s IH]; simpl; auto.
  destruct (Ascii.eqb d c); simpl; auto.
Qed.

Lemma split_nonempty (s : string) : Str.split c s <> [].
Proof.
  destruct s as [|d s]; simpl; [discriminate|].
  destruct (Ascii.eqb d c); [discriminate|].
  destruct (Str.split c s); discriminate.
Qed.

Lemma split_length (s : string) :
  List.length (Str.split c s) = S (Spec.count c s).
Proof.
  induction s as [|d s IH]; simpl; auto.
  destruct (Ascii.eqb d c); simpl.
  - now rewrite IH.
  - destruct (Str.split c s) eqn:E; simpl in *; [discriminate | assumption].
Qed.

Lemma split_none (s : string) :
  Spec.count c s = 0 -> Str.split c s = [s].
Proof.
  induction s as [|d s IH]; simpl; auto.
  destruct (Ascii.eqb d c); simpl; [discriminate|].
  intros H. now rewrite IH.
Qed.

Lemma split_once (s : string) :
  Spec.count c s = 1 -> exists u, Str.split c s = [u; Spec.after c s].
Proof.
  induction s as [|d s IH]; simpl; [discriminate|].
  destruct (Ascii.eqb d c); simpl; intros H.
  - exists "". rewrite split_none by lia. reflexivity.
  - destruct (IH H) as [u ->]. now exists (String d u).
Qed.

Lemma split_two (s u d : string) :
  Str.split c s = [u; d] -> Spec.count c s = 1 /\ d = Spec.after c s.
Proof.
  intros H.
  assert (Hc : Spec.count c s = 1).
  { pose proof (split_length s) as L. rewrite H in L. simpl in L. lia. }
  split; auto.
  destruct (split_once s Hc) as [u' H']. congruence.
Qed.

Lemma split_contains (s : string) :
  Str.contains c s = true ->
  exists p0 p1 ps, Str.split c s = p0 :: p1 :: ps.
Proof.
  rewrite contains_count. intros H.
  pose proof (split_length s) as L.
  destruct (Spec.count c s) as [|n]; [discriminate|].
  destruct (Str.split c s) as [|p0 [|p1 ps]]; simpl in L; try lia.
  now exists p0, p1, ps.
Qed.

Lemma split1_contains (s : string) :
  Str.contains c s = true -> exists u d, Str.split1 c s = [u; d].
Proof.
  induction s as [|x s IH]; simpl; [discriminate|].
  destruct (Ascii.eqb x c); simpl; intros H.
  - now exists "", s.
  - destruct (IH H) as (u & d & ->). now exists (String x u), d.
Qed.

End StrFacts.

(** ** The matcher only moves forward *)

Section ReFacts.

Lemma ahead_refl p : ahead p p.
Proof. now exists "". Qed.

Lemma ahead_trans p q r : ahead p q -> ahead q r -> ahead p r.
Proof.
  intros [w Hw] [w' Hw']. exists (w ++ w').
  rewrite Hw, Hw'. clear Hw. induction w as [|x w IH]; simpl; congruence.
Qed.

Lemma guard_ahead b p q : In q (Re.guard b p) -> ahead p q.
Proof.
  unfold Re.guard. destruct b; simpl; [|tauto].
  intros [<- | []]. apply ahead_refl.
Qed.

Lemma step_reads cls p q :
  In q (Re.step cls p) ->
  exists ch, cls ch = true /\ Re.rest p = String ch (Re.rest q).
Proof.
  unfold Re.step. destruct (Re.rest p) as [|ch s] eqn:E; simpl; [tauto|].
  destruct (cls ch) eqn:Hc; simpl; [|tauto].
  intros [<- | []]. now exists ch.
Qed.

Lemma iterate_ahead (f : Re.pos -> list Re.pos) :
  (forall p q, In q (f p) -> ahead p q) ->
  forall fuel p q, In q (Re.iterate f fuel p) -> ahead p q.
Proof.
  intros Hf. induction fuel as [|n IH]; intros p q; simpl.
  - intros [<- | []]. apply ahead_refl.
  - intros [<- | Hin]; [apply ahead_refl|].
    apply in_flat_map in Hin. destruct Hin as (m & Hm & Hq).
    eapply ahead_trans; eauto.
Qed.

Lemma run_ahead (r : Re.t) : forall p q, In q (Re.run r p) -> ahead p q.
Proof.
  induction r as [|cls|a IHa b IHb|a IHa b IHb|a IHa| | |]; intros p q; simpl.
  - intros [<- | []]. apply ahead_refl.
  - intros H. apply step_reads in H. destruct H as (ch & _ & E).
    exists (String ch ""). now rewrite E.
  - intros H. apply in_flat_map in H. destruct H as (m & Hm & Hq).
    eapply ahead_trans; eauto.
  - intros H. apply in_app_or in H. destruct H; auto.
  - apply iterate_ahead. assumption.
  - apply guard_ahead.
  - apply guard_ahead.
  - apply guard_ahead.
Qed.

(** A pattern with a literal character inside matches only where that
    character is ahead. *)
Lemma run_through_lit (a b : Re.t) (ch : ascii) p q :
  In q (Re.run (Re.Seq a (Re.Seq (Re.lit ch) b)) p) ->
  Str.contains ch (Re.rest p) = true.
Proof.
  simpl. intros H.
  apply in_flat_map in H. destruct H as (m & Hm & H).
  apply in_flat_map in H. destruct H as (m' & Hm' & _).
  apply run_ahead in Hm. destruct Hm as [w Hw].
  apply step_reads in Hm'. destruct Hm' as (x & Hx & E).
  apply Ascii.eqb_eq in Hx. subst x.
  rewrite Hw, E. apply contains_app.
Qed.

Lemma email_re_has_at (text : string) :
  Re.fullmatch PersonalInfoFinder.email_re text = true ->
  Str.contains "@" text = true.
Proof.
  unfold Re.fullmatch. intros H.
  apply existsb_exists in H. destruct H as (q & Hq & _).
  exact (run_through_lit _ _ _ _ _ Hq).
Qed.

End ReFacts.

(** ** Which calls can raise *)

Lemma redact_value_total (field : string) (v : value) :
  exists v', PIIRedactor.redact_value field v = Ok v'.
Proof.
  unfold PIIRedactor.redact_value.
  destruct (is_none v); [eauto|].
  destruct ((field =? "phone") || Re.search PIIDetector.phone_pattern (py_str v)).
  { destruct (10 <=? String.length (py_str v))%nat; eauto. }
  assert (Hname :
    exists v', (if (1 <? String.length (py_str v))%nat
                then c <- first_char (py_str v) ;;
                     Ok (VStr (c ++ Str.repeat "X" (Str.len_minus (py_str v) 1)))
                else Ok v) = Ok v').
  { destruct (py_str v) as [|ch s]; [simpl; eauto|].
    destruct (1 <? String.length (String ch s))%nat; simpl; eauto. }
  destruct (Str.contains "@" (py_str v)) eqn:Hat; cbn [andb].
  - destruct (Re.search PIIDetector.email_pattern (py_str v)).
    + destruct (split_contains _ _ Hat) as (p0 & p1 & ps & ->). simpl.
      destruct (2 <? String.length p0)%nat; eauto.
    + destruct (Str.mem field ["name"; "first_name"; "last_name"]); [exact Hname|].
      repeat match goal with
             | |- context [if ?b then _ else _] => destruct b
             end; eauto.
  - destruct (Str.mem field ["name"; "first_name"; "last_name"]); [exact Hname|].
    repeat match goal with
           | |- context [if ?b then _ else _] => destruct b
           end; eauto.
Qed.

Lemma hide_value_raises (field : string) (v : value) (e : exn) :
  PersonalInfoHider.hide_value field v = Raise e ->
  e = IndexError
  /\ Str.mem field PersonalInfoFinder.names = true
  /\ blank_text v = true.
Proof.
  unfold PersonalInfoHider.hide_value, blank_text.
  destruct (truthy v); cbn [negb andb]; [|discriminate].
  set (text := Str.strip (py_str v)).
  assert (Htail :
    (if Str.mem field ["name"; "first_name"; "last_name"]
     then match text with
          | "" => Raise IndexError
          | String c _ =>
              Ok (VStr (String c "" ++ Str.repeat "X" (Str.len_minus text 1)))
          end
     else if Str.mem field ["address"; "city"; "pin_code"; "state"]
          then Ok (VStr "[REDACTED_ADDRESS]") else Ok v) = Raise e ->
    e = IndexError /\ Str.mem field PersonalInfoFinder.names = true
    /\ (text =? "") = true).
  { unfold PersonalInfoFinder.names.
    destruct (Str.mem field ["name"; "first_name"; "last_name"]).
    - destruct text; [|discriminate]. intros [= <-]. auto.
    - destruct (Str.mem field ["address"; "city"; "pin_code"; "state"]);
        discriminate. }
  destruct ((field =? "phone") || Re.fullmatch PersonalInfoFinder.phone_re text);
    [discriminate|].
  destruct ((field =? "aadhar") || Re.fullmatch PersonalInfoFinder.aadhar_re text);
    [discriminate|].
  destruct (field =? "passport"); [discriminate|].
  destruct (Re.fullmatch PersonalInfoFinder.email_re text) eqn:Hmail.
  { apply email_re_has_at in Hmail.
    destruct (split1_contains _ _ Hmail) as (u & d & ->). discriminate. }
  destruct (Str.contains "@" text) eqn:Hat; [|exact Htail].
  destruct (split1_contains _ _ Hat) as (u & d & ->).
  cbv beta iota.
  destruct (Str.mem (Str.lower d) PersonalInfoFinder.upi_domains);
    [discriminate | exact Htail].
Qed.

(** A loop that stores one value per item, under the item's key. *)
Section ForEach.
Variable body : record -> string * value -> result record.
Hypothesis body_stores :
  forall acc item acc',
    body acc item = Ok acc' -> exists v', acc' = Dict.set (fst item) v' acc.

Lemma for_each_keys (items : record) :
  forall acc out,
    NoDup (Dict.keys acc ++ Dict.keys items) ->
    for_each body items acc = Ok out ->
    Dict.keys out = (Dict.keys acc ++ Dict.keys items)%list.
Proof.
  induction items as [|[k v] items IH]; intros acc out Hnd; simpl.
  - intros [= <-]. now rewrite app_nil_r.
  - destruct (body acc (k, v)) as [acc'|e] eqn:Hb; simpl; [|discriminate].
    intros Hrest.
    destruct (body_stores _ _ _ Hb) as [v' ->]. simpl in *.
    assert (Hfresh : ~ In k (Dict.keys acc)).
    { apply NoDup_remove_2 in Hnd. intros Hin. apply Hnd.
      apply in_or_app. now left. }
    assert (Hkeys : Dict.keys (Dict.set k v' acc) = (Dict.keys acc ++ [k])%list)
      by now apply keys_set_fresh.
    rewrite (IH _ _ ltac:(rewrite Hkeys, <- app_assoc; exact Hnd) Hrest).
    rewrite Hkeys, <- app_assoc. reflexivity.
Qed.

Lemma for_each_returns (items : record) :
  (forall acc item, In item items -> exists acc', body acc item = Ok acc') ->
  forall acc, exists out, for_each body items acc = Ok out.
Proof.
  induction items as [|item items IH]; intros Hok acc; simpl; [eauto|].
  destruct (Hok acc item (or_introl eq_refl)) as [acc' ->]. simpl.
  apply IH. intros. apply Hok. now right.
Qed.

Lemma for_each_raises (items : record) :
  forall acc e,
    for_each body items acc = Raise e ->
    exists acc' item, In item items /\ body acc' item = Raise e.
Proof.
  induction items as [|item items IH]; intros acc e; simpl; [discriminate|].
  destruct (body acc item) as [acc'|e'] eqn:Hb; simpl.
  - intros H. destruct (IH _ _ H) as (a & i & Hin & Hr). eauto.
  - intros [= <-]. eauto.
Qed.

End ForEach.

Lemma hide_item_stores r flags acc item acc' :
  PersonalInfoHider.hide_item r flags acc item = Ok acc' ->
  exists v', acc' = Dict.set (fst item) v' acc.
Proof.
  destruct item as [k v]. unfold PersonalInfoHider.hide_item.
  destruct (flagged k flags || PersonalInfoFinder.check_combined r).
  - destruct (PersonalInfoHider.hide_value k v) as [v'|e]; simpl; [|discriminate].
    intros [= <-]. eauto.
  - intros [= <-]. eauto.
Qed.

Lemma redact_item_stores data flags acc item acc' :
  PIIRedactor.redact_item data flags acc item = Ok acc' ->
  exists v', acc' = Dict.set (fst item) v' acc.
Proof.
  destruct item as [k v]. unfold PIIRedactor.redact_item.
  destruct (redact_value_total k v) as [v' ->]. simpl.
  repeat match goal with
         | |- context [if ?b then _ else _] => destruct b
         end; intros [= <-]; eauto.
Qed.

Lemma redact_item_returns data flags acc item :
  exists acc', PIIRedactor.redact_item data flags acc item = Ok acc'.
Proof.
  destruct item as [k v]. unfold PIIRedactor.redact_item.
  destruct (redact_value_total k v) as [v' ->]. simpl.
  repeat match goal with
         | |- context [if ?b then _ else _] => destruct b
         end; eauto.
Qed.

(** [detect_standalone_pii] stores a verdict for every value but [None]. *)
Lemma detect_standalone_pii_records (data : record) (field : string) (v : value) :
  Dict.wf data ->
  In (field, v) data ->
  v <> VNone ->
  exists b, Dict.get field (PIIDetector.detect_standalone_pii data) = Some b.
Proof.
  intros Hwf Hin Hv.
  rewrite detect_standalone_pii_get, (get_member _ _ _ Hwf Hin) by assumption.
  unfold PIIDetector.standalone_field.
  destruct v; try congruence; cbn [is_none];
    repeat match goal with
           | |- context [if ?b then _ else _] => destruct b
           end; eauto.
Qed.

(** ** The payment-handle branch of [check_single] *)

Lemma handle_branch (text : string) :
  match Str.split "@" text with
  | [_; domain] =>
      if Str.mem (Str.lower domain) PersonalInfoFinder.upi_domains
      then Some true else None
  | _ => None
  end = Some true
  <-> Spec.payment_handle text = true.
Proof.
  unfold Spec.payment_handle. split.
  - destruct (Str.split "@" text) as [|a [|b [|x l]]] eqn:Hs; try discriminate.
    destruct (split_two _ _ _ _ Hs) as [Hc ->]. rewrite Hc.
    destruct (Str.mem _ _); [reflexivity | discriminate].
  - intros H. apply andb_true_iff in H. destruct H as [Hc Hm].
    apply Nat.eqb_eq in Hc.
    destruct (split_once _ _ Hc) as [u ->]. now rewrite Hm.
Qed.

Lemma falsy_cases (v : value) :
  truthy v = false <->
  v = VNone \/ v = VStr "" \/ v = VInt 0 \/ v = VBool false.
Proof.
  split.
  - destruct v as [|b|n|s]; simpl; intros H; auto.
    + subst b. auto.
    + apply negb_false_iff, Z.eqb_eq in H. subst. auto.
    + apply negb_false_iff, String.eqb_eq in H. subst. auto.
  - intros [-> | [-> | [-> | ->]]]; reflexivity.
Qed.

Lemma wf_singleton (k : string) (v : value) : Dict.wf [(k, v)].
Proof. repeat constructor. simpl. tauto. Qed.

(** ** The claims *)

(** C1 (the code departs from it): masking is meant never to raise, yet
    [hide_value] reads [text[0]] of a [name] field whose value is only
    spaces, which is [IndexError]; [hide_record] raises with it on a record
    that [detect_pii] flags.  [redact_value] of the other script guards the
    same access by the length and returns. *)
Theorem hide_value_blank_name_raises :
  PersonalInfoHider.hide_value "name" (VStr "   ") = Raise IndexError
  /\ PersonalInfoFinder.detect_pii blank_name_record = true
  /\ PersonalInfoHider.hide_record blank_name_record true = Raise IndexError
  /\ PIIRedactor.redact_value "name" (VStr "   ") = Ok (VStr " XX").
Proof. repeat split; vm_compute; reflexivity. Qed.

(** C2 (the code departs from it): a value that matches the passport pattern
    under a field not named [passport] gets a true standalone verdict from
    [check_single], and [hide_record] returns it as it was, not ["XXXXXXX"]. *)
Theorem unnamed_passport_left_unmasked :
  Re.fullmatch PersonalInfoFinder.passport_re (Str.strip "A1234567") = true
  /\ Dict.get "doc" (PersonalInfoFinder.check_single unnamed_passport_record)
     = Some true
  /\ PersonalInfoFinder.detect_pii unnamed_passport_record = true
  /\ PersonalInfoHider.hide_record unnamed_passport_record true
     = Ok [("doc", VStr "A1234567")].
Proof. repeat split; vm_compute; reflexivity. Qed.

(** C3, as stated, fails on [PIIDetector]: the value ["a@b"] matches no
    earlier rule and its suffix is not a listed provider, yet its standalone
    verdict is true. *)
Lemma unlisted_handle_flagged_by_detector :
  truthy (VStr "a@b") = true
  /\ (("note" =? "phone") || Re.search PIIDetector.phone_pattern "a@b") = false
  /\ (("note" =? "aadhar") || Re.search PIIDetector.aadhar_pattern "a@b") = false
  /\ (("note" =? "passport") || Re.search PIIDetector.passport_pattern "a@b") = false
  /\ Re.search PIIDetector.email_pattern "a@b" = false
  /\ Spec.payment_handle (Str.strip "a@b") = false
  /\ ~ (Dict.get "note" (PIIDetector.detect_standalone_pii unlisted_handle_record)
        = Some true
        <-> Spec.payment_handle (Str.strip "a@b") = true).
Proof.
  do 6 (split; [vm_compute; reflexivity|]).
  intros [H _]. vm_compute in H. specialize (H eq_refl). discriminate.
Qed.

(** C3 (amended): in [PersonalInfoFinder.check_single], a field whose
    trimmed value is not empty and matched none of the phone, national-ID,
    passport and e-mail rules has a true standalone verdict exactly when the
    value has one [@] and the text after it, in lower case, is a listed
    provider suffix. *)
Theorem payment_handle_rule (r : record) (field : string) (v : value)
    (text : string) :
  Dict.wf r ->
  In (field, v) r ->
  text = Str.strip (py_str v) ->
  text <> "" ->
  (field =? "phone") || Re.fullmatch PersonalInfoFinder.phone_re text = false ->
  (field =? "aadhar") || Re.fullmatch PersonalInfoFinder.aadhar_re text = false ->
  (field =? "passport") || Re.fullmatch PersonalInfoFinder.passport_re text = false ->
  (field =? "email") || Re.fullmatch PersonalInfoFinder.email_re text = false ->
  Dict.get field (PersonalInfoFinder.check_single r) = Some true
  <-> Spec.payment_handle text = true.
Proof.
  intros Hwf Hin Htext Hne H1 H2 H3 H4.
  rewrite check_single_get, (get_member _ _ _ Hwf Hin) by assumption.
  unfold PersonalInfoFinder.check_field.
  destruct (truthy v) eqn:Ht; cbn [negb].
  - rewrite <- Htext, H1, H2, H3, H4.
    destruct (Str.contains "@" text) eqn:Hat; [apply handle_branch|].
    rewrite contains_count in Hat. apply negb_false_iff in Hat.
    unfold Spec.payment_handle. apply Nat.eqb_eq in Hat. rewrite Hat.
    simpl. split; discriminate.
  - apply falsy_cases in Ht.
    destruct Ht as [-> | [-> | [-> | ->]]]; subst text;
      try (exfalso; apply Hne; reflexivity);
      split; try discriminate; vm_compute; discriminate.
Qed.

Lemma payment_handle_rule_witness :
  Dict.get "note" (PersonalInfoFinder.check_single [("note", VStr " bob@OkICICI ")])
  = Some true
  <-> Spec.payment_handle "bob@OkICICI" = true.
Proof.
  apply (@payment_handle_rule [("note", VStr " bob@OkICICI ")] "note"
           (VStr " bob@OkICICI ") "bob@OkICICI").
  - apply wf_singleton.
  - simpl. auto.
  - reflexivity.
  - discriminate.
  - reflexivity.
  - reflexivity.
  - reflexivity.
  - reflexivity.
Defined.

(** C4, as stated, fails on [PersonalInfoFinder]: it has no rule for the
    name [upi_id], so the value ["abc"] under that name gets a false
    verdict and the record is not flagged. *)
Lemma upi_id_unflagged_by_finder :
  truthy (VStr "abc") = true
  /\ Dict.get "upi_id" (PersonalInfoFinder.check_single upi_id_record)
     <> Some true
  /\ PersonalInfoFinder.detect_pii upi_id_record <> true.
Proof. repeat split; vm_compute; discriminate. Qed.

(** C4 (amended): in [PIIDetector], a field named [upi_id] that holds a
    value that is not empty (not [None], and not blank once trimmed) has a
    true standalone verdict, whether or not the value looks like a payment
    handle, and [detect_pii] is true for the record. *)
Theorem upi_id_override (data : record) (v : value) :
  Dict.wf data ->
  In ("upi_id", v) data ->
  v <> VNone ->
  Str.strip (py_str v) <> "" ->
  Dict.get "upi_id" (PIIDetector.detect_standalone_pii data) = Some true
  /\ PIIDetector.detect_pii data = true.
Proof.
  intros Hwf Hin Hv _.
  assert (Hflag :
    Dict.get "upi_id" (PIIDetector.detect_standalone_pii data) = Some true).
  { rewrite detect_standalone_pii_get, (get_member _ _ _ Hwf Hin) by assumption.
    unfold PIIDetector.standalone_field.
    destruct v; try congruence; cbn [is_none];
      destruct (Re.search PIIDetector.phone_pattern _);
      destruct (Re.search PIIDetector.aadhar_pattern _);
      destruct (Re.search PIIDetector.passport_pattern _); reflexivity. }
  split; [exact Hflag|].
  unfold PIIDetector.detect_pii. now rewrite (any_value_get _ _ Hflag).
Qed.

Lemma upi_id_override_witness :
  Dict.get "upi_id" (PIIDetector.detect_standalone_pii upi_id_record) = Some true
  /\ PIIDetector.detect_pii upi_id_record = true.
Proof.
  apply (upi_id_override upi_id_record (VStr "abc")).
  - apply wf_singleton.
  - simpl. auto.
  - discriminate.
  - vm_compute. discriminate.
Defined.

(** C5, as stated, fails on [PIIRedactor]: it replaces the value of a field
    named [aadhar] by a fixed placeholder and keeps no digit. *)
Lemma aadhar_mask_differs_in_redactor :
  PIIRedactor.redact_record aadhar_record true
  <> Ok [("aadhar", VStr "XXXX XXXX 9012")].
Proof. vm_compute. discriminate. Qed.

(** C5 (amended): for the record that maps [aadhar] to ["1234 5678 9012"],
    both detectors return true; [PersonalInfoHider.hide_record] maps
    [aadhar] to ["XXXX XXXX 9012"], the fixed prefix and the last four
    characters, and [PIIRedactor.redact_record] maps it to
    ["[REDACTED_AADHAR]"]. *)
Theorem aadhar_record_redaction :
  PersonalInfoFinder.detect_pii aadhar_record = true
  /\ PIIDetector.detect_pii aadhar_record = true
  /\ PersonalInfoHider.hide_record aadhar_record true
     = Ok [("aadhar", VStr ("XXXX XXXX " ++ Str.last 4 "1234 5678 9012"))]
  /\ PersonalInfoHider.hide_record aadhar_record true
     = Ok [("aadhar", VStr "XXXX XXXX 9012")]
  /\ PIIRedactor.redact_record aadhar_record true
     = Ok [("aadhar", VStr "[REDACTED_AADHAR]")].
Proof. repeat split; vm_compute; reflexivity. Qed.

(** C6 (the code departs from it): a [phone] field that holds only spaces
    gets a true standalone verdict, makes the record PII and is rewritten
    to the empty string; a [last_name] that holds only spaces completes the
    name group, which without it is not satisfied.  [PIIDetector] flags
    even an empty [phone]. *)
Theorem blank_value_treated_as_pii :
  Str.strip "   " = ""
  /\ Dict.get "phone" (PersonalInfoFinder.check_single blank_phone_record)
     = Some true
  /\ PersonalInfoFinder.detect_pii blank_phone_record = true
  /\ PersonalInfoHider.hide_record blank_phone_record true
     = Ok [("phone", VStr "")]
  /\ PersonalInfoFinder.check_combined blank_last_name_record = true
  /\ PersonalInfoFinder.check_combined no_last_name_record = false
  /\ Dict.get "phone" (PIIDetector.detect_standalone_pii empty_phone_record)
     = Some true
  /\ PIIDetector.detect_pii empty_phone_record = true.
Proof. repeat split; vm_compute; reflexivity. Qed.

(** C7 (the code departs from it): [check_single] stores nothing for a
    value with an [@] whose suffix is not a listed provider: the field is
    evaluated, matches no rule, and is missing from the map.
    [detect_standalone_pii] has an entry for it. *)
Theorem check_single_omits_unlisted_handle :
  truthy (VStr "a@b") = true
  /\ PersonalInfoFinder.check_single unlisted_handle_record = []
  /\ Dict.get "note" (PersonalInfoFinder.check_single unlisted_handle_record)
     = None
  /\ Dict.get "note" (PIIDetector.detect_standalone_pii unlisted_handle_record)
     <> None.
Proof. repeat split; vm_compute; congruence. Qed.

(** C8, as stated, fails: the two detectors disagree on a record with an
    unlisted handle, and the two redactors on the [aadhar] record. *)
Lemma scripts_disagree :
  PersonalInfoFinder.detect_pii unlisted_handle_record
  <> PIIDetector.detect_pii unlisted_handle_record
  /\ PersonalInfoHider.hide_record aadhar_record true
     <> PIIRedactor.redact_record aadhar_record true.
Proof. split; vm_compute; discriminate. Qed.

(** C9: record redaction keeps the keys of the record, in their order.
    [redact_record] always returns, and what it returns has the keys of its
    input.  [hide_record] returns a mapping with the keys of its input, or
    raises because a name field holds blank text (see C1). *)
Theorem redaction_keeps_keys (r : record) (flag : bool) :
  Dict.wf r ->
  match PersonalInfoHider.hide_record r flag with
  | Ok out => Dict.keys out = Dict.keys r
  | Raise e =>
      exists field v,
        In (field, v) r
        /\ Str.mem field PersonalInfoFinder.names = true
        /\ blank_text v = true
  end
  /\ exists out,
       PIIRedactor.redact_record r flag = Ok out
       /\ Dict.keys out = Dict.keys r.
Proof.
  intros Hwf. split.
  - unfold PersonalInfoHider.hide_record.
    destruct flag; cbn [negb]; [|reflexivity].
    set (flags := PersonalInfoFinder.check_single r).
    destruct (for_each (PersonalInfoHider.hide_item r flags) r []) as [out|e] eqn:E.
    + apply (for_each_keys _ (hide_item_stores r flags) r [] out Hwf E).
    + apply for_each_raises in E. destruct E as (acc & [k v] & Hin & Hr).
      exists k, v. split; [exact Hin|].
      unfold PersonalInfoHider.hide_item in Hr.
      destruct (flagged k flags || PersonalInfoFinder.check_combined r);
        [|discriminate].
      destruct (PersonalInfoHider.hide_value k v) as [v'|e'] eqn:Hv;
        [discriminate|].
      apply hide_value_raises in Hv. tauto.
  - unfold PIIRedactor.redact_record.
    destruct flag; cbn [negb]; [|eauto].
    set (flags := PIIDetector.detect_standalone_pii r).
    destruct (for_each_returns _ r
                (fun acc item _ => redact_item_returns r flags acc item) [])
      as [out E].
    exists out. split; [exact E|].
    apply (for_each_keys _ (redact_item_stores r flags) r [] out Hwf E).
Qed.

Lemma redaction_keeps_keys_witness :
  match PersonalInfoHider.hide_record phone_record true with
  | Ok out => Dict.keys out = Dict.keys phone_record
  | Raise e =>
      exists field v,
        In (field, v) phone_record
        /\ Str.mem field PersonalInfoFinder.names = true
        /\ blank_text v = true
  end
  /\ exists out,
       PIIRedactor.redact_record phone_record true = Ok out
       /\ Dict.keys out = Dict.keys phone_record.
Proof.
  apply (redaction_keeps_keys phone_record true).
  apply wf_singleton.
Defined.

(** C10: in [PersonalInfoFinder] and [PersonalInfoHider], a field whose
    value is [None], the empty string, the number 0 or [False] gets no entry
    from [check_single], and [hide_value] returns the value as it is,
    whatever the name of the field. *)
Theorem falsy_value_skipped (r : record) (field : string) (v : value) :
  Dict.wf r ->
  In (field, v) r ->
  v = VNone \/ v = VStr "" \/ v = VInt 0 \/ v = VBool false ->
  Dict.get field (PersonalInfoFinder.check_single r) = None
  /\ PersonalInfoHider.hide_value field v = Ok v.
Proof.
  intros Hwf Hin Hv. apply falsy_cases in Hv. split.
  - rewrite check_single_get, (get_member _ _ _ Hwf Hin) by assumption.
    unfold PersonalInfoFinder.check_field. now rewrite Hv.
  - unfold PersonalInfoHider.hide_value. now rewrite Hv.
Qed.

Lemma falsy_value_skipped_witness :
  Dict.get "phone" (PersonalInfoFinder.check_single zero_phone_record) = None
  /\ PersonalInfoHider.hide_value "phone" (VInt 0) = Ok (VInt 0).
Proof.
  apply (falsy_value_skipped zero_phone_record "phone" (VInt 0)).
  - apply wf_singleton.
  - simpl. auto.
  - auto.
Defined.

(** * Further properties of the two scripts *)
(** ** Text *)

Lemma str_app_nil_r (s : string) : s ++ "" = s.
Proof. induction s as [|c s IH]; simpl; congruence. Qed.

Lemma str_app_assoc (a b c : string) : (a ++ b) ++ c = a ++ (b ++ c).
Proof. induction a as [|x a IH]; simpl; congruence. Qed.

Lemma str_length_app (a b : string) :
  String.length (a ++ b) = String.length a + String.length b.
Proof. induction a as [|x a IH]; simpl; congruence. Qed.

Lemma str_all_app (p : ascii -> bool) (a b : string) :
  Str.all p (a ++ b) = Str.all p a && Str.all p b.
Proof.
  induction a as [|x a IH]; simpl; auto.
  rewrite IH. now rewrite andb_assoc.
Qed.

Lemma str_app_inv_length (a b a' b' : string) :
  a ++ b = a' ++ b' -> String.length a = String.length a' -> a = a' /\ b = b'.
Proof.
  revert a'. induction a as [|x a IH]; intros [|x' a']; simpl; try discriminate.
  - auto.
  - intros [= -> H] [= L]. destruct (IH _ H L) as [-> ->]. auto.
Qed.

(** ** What the anchored patterns accept *)

Lemma fullmatch_iff (r : Re.t) (s : string) :
  Re.fullmatch r s = true
  <-> exists q, In q (Re.run r (Re.Pos None s)) /\ Re.rest q = "".
Proof.
  unfold Re.fullmatch. rewrite existsb_exists.
  split; intros (q & Hq & He); exists q; split; auto.
  - unfold Re.at_end in He. now destruct (Re.rest q).
  - unfold Re.at_end. now rewrite He.
Qed.

Lemma in_run_seq (a b : Re.t) (p q : Re.pos) :
  In q (Re.run (Re.Seq a b) p)
  <-> exists m, In m (Re.run a p) /\ In q (Re.run b m).
Proof. apply in_flat_map. Qed.

Lemma in_run_guard (b : bool) (p q : Re.pos) :
  In q (Re.guard b p) <-> b = true /\ q = p.
Proof.
  unfold Re.guard. destruct b; simpl; intuition (auto; discriminate).
Qed.

Lemma in_run_eps (p q : Re.pos) : In q (Re.run Re.Eps p) <-> q = p.
Proof. simpl. intuition auto. Qed.

(** [n] characters of a class, and nothing else, are read by [a{n}]. *)
Lemma run_rep_chr_in (cls : ascii -> bool) (n : nat) :
  forall p q,
    In q (Re.run (Re.Rep n (Re.Chr cls)) p) ->
    exists w,
      Re.rest p = w ++ Re.rest q /\ String.length w = n /\ Str.all cls w = true.
Proof.
  induction n as [|n IH]; intros p q H.
  - apply in_run_eps in H. subst q. now exists "".
  - change (Re.Rep (S n) (Re.Chr cls))
      with (Re.Seq (Re.Chr cls) (Re.Rep n (Re.Chr cls))) in H.
    apply in_run_seq in H. destruct H as (m & Hm & Hq).
    apply step_reads in Hm. destruct Hm as (ch & Hch & E).
    destruct (IH _ _ Hq) as (w & Ew & Lw & Aw).
    exists (String ch w). simpl. rewrite E, Ew, Lw, Hch, Aw. auto.
Qed.

Lemma run_rep_chr_out (cls : ascii -> bool) (w s : string) :
  Str.all cls w = true ->
  forall pv, exists pv',
    Re.run (Re.Rep (String.length w) (Re.Chr cls)) (Re.Pos pv (w ++ s))
    = [Re.Pos pv' s].
Proof.
  induction w as [|c w IH]; simpl; intros Hall pv.
  - now exists pv.
  - apply andb_true_iff in Hall. destruct Hall as [Hc Hw].
    unfold Re.step. simpl. rewrite Hc. simpl.
    destruct (IH Hw (Some c)) as [pv' ->]. now exists pv'.
Qed.

(** [$] and then the end of the pattern. *)
Lemma in_run_eol (m q : Re.pos) :
  In q (Re.run (Re.cat [Re.Eol]) m) <-> Re.at_eol m = true /\ q = m.
Proof.
  change (Re.cat [Re.Eol]) with (Re.Seq Re.Eol Re.Eps).
  rewrite in_run_seq. split.
  - intros (x & Hx & Hq). apply in_run_guard in Hx. apply in_run_eps in Hq.
    destruct Hx as [? ->]. subst. auto.
  - intros [He ->]. exists m. split; [apply in_run_guard | apply in_run_eps]; auto.
Qed.

(** [^] at the start of the subject. *)
Lemma in_run_bol (r : Re.t) (s : string) (q : Re.pos) :
  In q (Re.run (Re.Seq Re.Bol r) (Re.Pos None s))
  <-> In q (Re.run r (Re.Pos None s)).
Proof.
  rewrite in_run_seq. split.
  - intros (m & Hm & Hq). apply in_run_guard in Hm. destruct Hm as [_ ->]. auto.
  - intros H. exists (Re.Pos None s). split; auto. now apply in_run_guard.
Qed.

(** [phone_re] accepts exactly the texts of ten decimal digits. *)
Theorem phone_re_accepts (text : string) :
  Re.fullmatch PersonalInfoFinder.phone_re text = true
  <-> String.length text = 10 /\ Str.all Char.is_digit text = true.
Proof.
  rewrite fullmatch_iff.
  change PersonalInfoFinder.phone_re
    with (Re.Seq Re.Bol (Re.Seq (Re.Rep 10 digit) (Re.cat [Re.Eol]))).
  split.
  - intros (q & Hq & Hend). apply -> in_run_bol in Hq. apply -> in_run_seq in Hq.
    destruct Hq as (m & Hm & Hq). apply -> in_run_eol in Hq. destruct Hq as [_ ->].
    apply run_rep_chr_in in Hm. destruct Hm as (w & E & L & A).
    simpl in E. rewrite Hend, str_app_nil_r in E. subst w. auto.
  - intros [L A].
    destruct (run_rep_chr_out Char.is_digit text "" A None) as [pv E].
    rewrite L, str_app_nil_r in E.
    exists (Re.Pos pv ""). split; [|reflexivity].
    apply <- in_run_bol. apply <- in_run_seq. exists (Re.Pos pv ""). split.
    + unfold digit. rewrite E. now left.
    + apply <- in_run_eol. auto.
Qed.

(** [passport_re] accepts exactly one letter from A to Z followed by seven
    decimal digits. *)
Theorem passport_re_accepts (text : string) :
  Re.fullmatch PersonalInfoFinder.passport_re text = true
  <-> exists c ds,
        text = String c ds
        /\ Char.is_upper_az c = true
        /\ String.length ds = 7
        /\ Str.all Char.is_digit ds = true.
Proof.
  rewrite fullmatch_iff.
  change PersonalInfoFinder.passport_re
    with (Re.Seq Re.Bol
            (Re.Seq upper_az (Re.Seq (Re.Rep 7 digit) (Re.cat [Re.Eol])))).
  split.
  - intros (q & Hq & Hend). apply -> in_run_bol in Hq. apply -> in_run_seq in Hq.
    destruct Hq as (m0 & Hm0 & Hq). apply -> in_run_seq in Hq.
    destruct Hq as (m & Hm & Hq). apply -> in_run_eol in Hq. destruct Hq as [_ ->].
    apply step_reads in Hm0. destruct Hm0 as (c & Hc & E0). simpl in E0.
    apply run_rep_chr_in in Hm. destruct Hm as (w & E & L & A).
    rewrite Hend, str_app_nil_r in E.
    exists c, w. rewrite E0, E. auto.
  - intros (c & ds & -> & Hc & L & A).
    destruct (run_rep_chr_out Char.is_digit ds "" A (Some c)) as [pv E].
    rewrite L, str_app_nil_r in E.
    exists (Re.Pos pv ""). split; [|reflexivity].
    apply <- in_run_bol. apply <- in_run_seq. exists (Re.Pos (Some c) ds). split.
    + unfold upper_az. simpl. unfold Re.step. simpl. rewrite Hc. now left.
    + apply <- in_run_seq. exists (Re.Pos pv ""). split.
      * unfold digit. rewrite E. now left.
      * apply <- in_run_eol. auto.
Qed.

Lemma reaches_rep (cls : ascii -> bool) (w s : string) :
  Str.all cls w = true ->
  reaches (Re.Rep (String.length w) (Re.Chr cls)) (w ++ s) s.
Proof.
  intros A pv. destruct (run_rep_chr_out cls w s A pv) as [pv' ->].
  exists pv'. now left.
Qed.

Lemma reaches_opt_space (w s : string) :
  space_or_none w -> reaches (Re.Opt space) (w ++ s) s.
Proof.
  intros [-> | (c & Hc & ->)] pv; simpl.
  - exists pv. apply in_or_app. right. now left.
  - exists (Some c). apply in_or_app. left.
    unfold Re.step. simpl. rewrite Hc. now left.
Qed.

Lemma reaches_seq (a b : Re.t) (s s1 s2 : string) :
  reaches a s s1 -> reaches b s1 s2 -> reaches (Re.Seq a b) s s2.
Proof.
  intros Ha Hb pv. destruct (Ha pv) as [pv1 H1]. destruct (Hb pv1) as [pv2 H2].
  exists pv2. apply <- in_run_seq. eauto.
Qed.

Lemma reaches_eol : reaches (Re.cat [Re.Eol]) "" "".
Proof. intros pv. exists pv. apply <- in_run_eol. auto. Qed.

Lemma reaches_fullmatch (r : Re.t) (s : string) :
  reaches r s "" -> Re.fullmatch (Re.Seq Re.Bol r) s = true.
Proof.
  intros H. apply fullmatch_iff. destruct (H None) as [pv Hq].
  exists (Re.Pos pv ""). split; [|reflexivity]. now apply <- in_run_bol.
Qed.

Lemma in_run_opt_space (p q : Re.pos) :
  In q (Re.run (Re.Opt space) p) ->
  exists w, Re.rest p = w ++ Re.rest q /\ space_or_none w.
Proof.
  simpl. intros H. apply in_app_or in H. destruct H as [H | [<- | []]].
  - apply step_reads in H. destruct H as (c & Hc & E).
    exists (String c ""). split; [now rewrite E|]. right. eauto.
  - exists "". split; [reflexivity | now left].
Qed.

(** [aadhar_re] accepts exactly three groups of four decimal digits, with
    nothing or one space character between two groups. *)
Theorem aadhar_re_accepts (text : string) :
  Re.fullmatch PersonalInfoFinder.aadhar_re text = true
  <-> exists g1 s1 g2 s2 g3,
        text = g1 ++ s1 ++ g2 ++ s2 ++ g3
        /\ digits 4 g1 /\ digits 4 g2 /\ digits 4 g3
        /\ space_or_none s1 /\ space_or_none s2.
Proof.
  change PersonalInfoFinder.aadhar_re
    with (Re.Seq Re.Bol
            (Re.Seq (Re.Rep 4 digit)
               (Re.Seq (Re.Opt space)
                  (Re.Seq (Re.Rep 4 digit)
                     (Re.Seq (Re.Opt space)
                        (Re.Seq (Re.Rep 4 digit) (Re.cat [Re.Eol]))))))).
  split.
  - intros H. apply fullmatch_iff in H. destruct H as (q & Hq & Hend).
    apply -> in_run_bol in Hq.
    apply -> in_run_seq in Hq. destruct Hq as (m1 & H1 & Hq).
    apply -> in_run_seq in Hq. destruct Hq as (m2 & H2 & Hq).
    apply -> in_run_seq in Hq. destruct Hq as (m3 & H3 & Hq).
    apply -> in_run_seq in Hq. destruct Hq as (m4 & H4 & Hq).
    apply -> in_run_seq in Hq. destruct Hq as (m5 & H5 & Hq).
    apply -> in_run_eol in Hq. destruct Hq as [_ ->].
    apply run_rep_chr_in in H1. destruct H1 as (g1 & E1 & L1 & A1).
    apply in_run_opt_space in H2. destruct H2 as (s1 & E2 & S1).
    apply run_rep_chr_in in H3. destruct H3 as (g2 & E3 & L3 & A3).
    apply in_run_opt_space in H4. destruct H4 as (s2 & E4 & S2).
    apply run_rep_chr_in in H5. destruct H5 as (g3 & E5 & L5 & A5).
    rewrite Hend, str_app_nil_r in E5.
    exists g1, s1, g2, s2, g3. simpl in E1.
    rewrite E1, E2, E3, E4, E5. unfold digits. auto 10.
  - intros (g1 & s1 & g2 & s2 & g3 & -> & [L1 A1] & [L2 A2] & [L3 A3] & S1 & S2).
    apply reaches_fullmatch.
    rewrite <- L1 at 1. apply reaches_seq with (s1 ++ g2 ++ s2 ++ g3);
      [now apply reaches_rep|].
    apply reaches_seq with (g2 ++ s2 ++ g3); [now apply reaches_opt_space|].
    rewrite <- L2 at 1. apply reaches_seq with (s2 ++ g3);
      [now apply reaches_rep|].
    apply reaches_seq with g3; [now apply reaches_opt_space|].
    rewrite <- L3 at 1. apply reaches_seq with "".
    + rewrite <- (str_app_nil_r g3) at 2. now apply reaches_rep.
    + apply reaches_eol.
Qed.

Lemma iterate_chr_in (cls : ascii -> bool) (fuel : nat) :
  forall p q,
    In q (Re.iterate (Re.run (Re.Chr cls)) fuel p) ->
    exists w, Re.rest p = w ++ Re.rest q /\ Str.all cls w = true.
Proof.
  induction fuel as [|n IH]; intros p q; simpl.
  - intros [<- | []]. now exists "".
  - intros [<- | H]; [now exists ""|].
    apply in_flat_map in H. destruct H as (m & Hm & Hq).
    apply step_reads in Hm. destruct Hm as (c & Hc & E).
    destruct (IH _ _ Hq) as (w & Ew & Aw).
    exists (String c w). simpl. rewrite E, Ew, Hc, Aw. auto.
Qed.

Lemma iterate_chr_out (cls : ascii -> bool) (w s : string) :
  Str.all cls w = true ->
  forall fuel pv,
    String.length w <= fuel ->
    exists pv',
      In (Re.Pos pv' s) (Re.iterate (Re.run (Re.Chr cls)) fuel (Re.Pos pv (w ++ s))).
Proof.
  induction w as [|c w IH]; simpl; intros Hall fuel pv Hfuel.
  - exists pv. destruct fuel; now left.
  - apply andb_true_iff in Hall. destruct Hall as [Hc Hw].
    destruct fuel as [|n]; [lia|]. simpl.
    destruct (IH Hw n (Some c) ltac:(lia)) as [pv' H].
    exists pv'. right. unfold Re.step. simpl. rewrite Hc. simpl.
    apply in_or_app. now left.
Qed.

Lemma reaches_star (cls : ascii -> bool) (w s : string) :
  Str.all cls w = true -> reaches (Re.Star (Re.Chr cls)) (w ++ s) s.
Proof.
  intros A pv. simpl. apply iterate_chr_out; auto.
  rewrite str_length_app. lia.
Qed.

Lemma reaches_chr (cls : ascii -> bool) (c : ascii) (s : string) :
  cls c = true -> reaches (Re.Chr cls) (String c s) s.
Proof.
  intros Hc pv. exists (Some c). simpl. unfold Re.step. simpl.
  rewrite Hc. now left.
Qed.

Lemma reaches_plus (cls : ascii -> bool) (w s : string) :
  w <> "" -> Str.all cls w = true ->
  reaches (Re.Plus (Re.Chr cls)) (w ++ s) s.
Proof.
  destruct w as [|c w]; [congruence|]. simpl. intros _ A.
  apply andb_true_iff in A. destruct A as [Hc Hw].
  apply reaches_seq with (w ++ s); [now apply reaches_chr | now apply reaches_star].
Qed.

Lemma reaches_eps (s : string) : reaches Re.Eps s s.
Proof. intros pv. exists pv. now left. Qed.

Lemma in_run_star_chr (cls : ascii -> bool) (p q : Re.pos) :
  In q (Re.run (Re.Star (Re.Chr cls)) p) ->
  exists w, Re.rest p = w ++ Re.rest q /\ Str.all cls w = true.
Proof. apply iterate_chr_in. Qed.

Lemma in_run_plus_chr (cls : ascii -> bool) (p q : Re.pos) :
  In q (Re.run (Re.Plus (Re.Chr cls)) p) ->
  exists w, Re.rest p = w ++ Re.rest q /\ w <> "" /\ Str.all cls w = true.
Proof.
  unfold Re.Plus. intros H. apply -> in_run_seq in H.
  destruct H as (m & Hm & Hq).
  apply step_reads in Hm. destruct Hm as (c & Hc & E).
  apply in_run_star_chr in Hq. destruct Hq as (w & Ew & Aw).
  exists (String c w). simpl. rewrite E, Ew, Hc, Aw.
  repeat split; auto. discriminate.
Qed.

Lemma in_run_lit (c : ascii) (p q : Re.pos) :
  In q (Re.run (Re.lit c) p) -> Re.rest p = String c (Re.rest q).
Proof.
  intros H. apply step_reads in H. destruct H as (x & Hx & E).
  apply Ascii.eqb_eq in Hx. now subst x.
Qed.

(** [email_re] accepts exactly a local part, [@], a domain, a dot and a
    top-level name: the local part and the domain are not empty and stay in
    their classes, the top-level name has two letters or more. *)
Theorem email_re_accepts (text : string) :
  Re.fullmatch PersonalInfoFinder.email_re text = true
  <-> exists local dom tld,
        text = local ++ "@" ++ dom ++ "." ++ tld
        /\ local <> "" /\ Str.all is_local_char local = true
        /\ dom <> "" /\ Str.all is_domain_char dom = true
        /\ 2 <= String.length tld /\ Str.all is_letter_az tld = true.
Proof.
  change PersonalInfoFinder.email_re
    with (Re.Seq (Re.Plus (Re.Chr is_local_char))
            (Re.Seq (Re.lit "@")
               (Re.Seq (Re.Plus (Re.Chr is_domain_char))
                  (Re.Seq (Re.lit ".")
                     (Re.Seq (Re.Seq (Re.Rep 2 (Re.Chr is_letter_az))
                                (Re.Star (Re.Chr is_letter_az)))
                        Re.Eps))))).
  split.
  - intros H. apply fullmatch_iff in H. destruct H as (q & Hq & Hend).
    apply -> in_run_seq in Hq. destruct Hq as (m1 & H1 & Hq).
    apply -> in_run_seq in Hq. destruct Hq as (m2 & H2 & Hq).
    apply -> in_run_seq in Hq. destruct Hq as (m3 & H3 & Hq).
    apply -> in_run_seq in Hq. destruct Hq as (m4 & H4 & Hq).
    apply -> in_run_seq in Hq. destruct Hq as (m5 & H5 & Hq).
    apply in_run_eps in Hq. subst m5.
    apply -> in_run_seq in H5. destruct H5 as (m6 & H5 & H6).
    apply in_run_plus_chr in H1. destruct H1 as (local & E1 & N1 & A1).
    apply in_run_lit in H2.
    apply in_run_plus_chr in H3. destruct H3 as (dom & E3 & N3 & A3).
    apply in_run_lit in H4.
    apply run_rep_chr_in in H5. destruct H5 as (t1 & E5 & L5 & A5).
    apply in_run_star_chr in H6. destruct H6 as (t2 & E6 & A6).
    rewrite Hend, str_app_nil_r in E6.
    exists local, dom, (t1 ++ t2). simpl in E1.
    rewrite E1, H2, E3, H4, E5, E6, str_length_app, str_all_app, A5, A6.
    repeat split; auto. lia.
  - intros (local & dom & tld & -> & N1 & A1 & N3 & A3 & L & A).
    apply fullmatch_iff.
    assert (R : reaches
      (Re.Seq (Re.Plus (Re.Chr is_local_char))
         (Re.Seq (Re.lit "@")
            (Re.Seq (Re.Plus (Re.Chr is_domain_char))
               (Re.Seq (Re.lit ".")
                  (Re.Seq (Re.Seq (Re.Rep 2 (Re.Chr is_letter_az))
                             (Re.Star (Re.Chr is_letter_az)))
                     Re.Eps)))))
      (local ++ "@" ++ dom ++ "." ++ tld) "").
    { apply reaches_seq with ("@" ++ dom ++ "." ++ tld);
        [now apply reaches_plus|].
      apply reaches_seq with (dom ++ "." ++ tld);
        [apply reaches_chr, Ascii.eqb_refl|].
      apply reaches_seq with ("." ++ tld); [now apply reaches_plus|].
      apply reaches_seq with tld; [apply reaches_chr, Ascii.eqb_refl|].
      apply reaches_seq with ""; [|apply reaches_eps].
      destruct tld as [|a [|b t]]; simpl in L; try lia.
      simpl in A. apply andb_true_iff in A. destruct A as [Ha A].
      apply andb_true_iff in A. destruct A as [Hb At].
      apply reaches_seq with t.
      - change (String a (String b t)) with (String a (String b "") ++ t).
        apply (reaches_rep is_letter_az (String a (String b "")) t).
        simpl. now rewrite Ha, Hb.
      - rewrite <- (str_app_nil_r t) at 1. now apply reaches_star. }
    destruct (R None) as [pv Hq]. exists (Re.Pos pv ""). auto.
Qed.

(** ** Slices and repetitions *)

Lemma take_length (n : nat) (s : string) :
  String.length (Str.take n s) = Nat.min n (String.length s).
Proof.
  revert s. induction n as [|n IH]; intros [|c s]; simpl; auto.
Qed.

Lemma drop_length (n : nat) (s : string) :
  String.length (Str.drop n s) = String.length s - n.
Proof.
  revert s. induction n as [|n IH]; intros [|c s]; simpl; auto.
Qed.

Lemma last_length (n : nat) (s : string) :
  String.length (Str.last n s) = Nat.min n (String.length s).
Proof. unfold Str.last. rewrite drop_length. lia. Qed.

Lemma repeat_nonpositive (c : ascii) (n : Z) : (n <= 0)%Z -> Str.repeat c n = "".
Proof.
  intros H. unfold Str.repeat. now replace (Z.to_nat n) with 0 by lia.
Qed.

Lemma repeat_length (c : ascii) (n : Z) :
  String.length (Str.repeat c n) = Z.to_nat n.
Proof.
  unfold Str.repeat. induction (Z.to_nat n) as [|k IH]; simpl; congruence.
Qed.

Lemma repeat_all (c : ascii) (n : Z) :
  Str.all (Ascii.eqb c) (Str.repeat c n) = true.
Proof.
  unfold Str.repeat. induction (Z.to_nat n) as [|k IH]; simpl; auto.
  now rewrite Ascii.eqb_refl.
Qed.

Lemma split1_cut (c : ascii) (s : string) :
  Str.contains c s = true ->
  exists u d,
    Str.split1 c s = [u; d] /\ s = u ++ String c d /\ Str.contains c u = false.
Proof.
  induction s as [|x s IH]; simpl; [discriminate|].
  destruct (Ascii.eqb x c) eqn:E; simpl; intros H.
  - apply Ascii.eqb_eq in E. subst x. now exists "", s.
  - destruct (IH H) as (u & d & -> & Es & Hu).
    exists (String x u), d. simpl. rewrite E, Hu, <- Es. auto.
Qed.

Lemma contains_app_split (c : ascii) (a b : string) :
  Str.contains c (a ++ b) = Str.contains c a || Str.contains c b.
Proof.
  induction a as [|x a IH]; simpl; auto. rewrite IH. now rewrite orb_assoc.
Qed.

(** A text of characters of a class that leaves [c] out has no [c]. *)
Lemma all_no_char (cls : ascii -> bool) (c : ascii) (s : string) :
  cls c = false -> Str.all cls s = true -> Str.contains c s = false.
Proof.
  intros Hc. induction s as [|x s IH]; simpl; auto.
  intros H. apply andb_true_iff in H. destruct H as [Hx Hs].
  rewrite (IH Hs), orb_false_r.
  destruct (Ascii.eqb x c) eqn:E; auto.
  apply Ascii.eqb_eq in E. congruence.
Qed.

Lemma space_or_none_no_at (s : string) :
  space_or_none s -> Str.contains "@" s = false.
Proof.
  intros [-> | (c & Hc & ->)]; simpl; auto.
  rewrite orb_false_r. destruct (Ascii.eqb c "@") eqn:E; auto.
  apply Ascii.eqb_eq in E. subst c. discriminate.
Qed.

Lemma phone_text_no_at (text : string) :
  Re.fullmatch PersonalInfoFinder.phone_re text = true ->
  Str.contains "@" text = false.
Proof.
  intros H. apply phone_re_accepts in H. destruct H as [_ A].
  now apply (all_no_char Char.is_digit).
Qed.

Lemma aadhar_text_no_at (text : string) :
  Re.fullmatch PersonalInfoFinder.aadhar_re text = true ->
  Str.contains "@" text = false.
Proof.
  intros H. apply aadhar_re_accepts in H.
  destruct H as (g1 & s1 & g2 & s2 & g3 & -> & [_ A1] & [_ A2] & [_ A3] & S1 & S2).
  rewrite !contains_app_split.
  rewrite (all_no_char Char.is_digit "@" g1), (all_no_char Char.is_digit "@" g2),
    (all_no_char Char.is_digit "@" g3), (space_or_none_no_at s1),
    (space_or_none_no_at s2); auto.
Qed.

Lemma passport_text_no_at (text : string) :
  Re.fullmatch PersonalInfoFinder.passport_re text = true ->
  Str.contains "@" text = false.
Proof.
  intros H. apply passport_re_accepts in H.
  destruct H as (c & ds & -> & Hc & _ & A). simpl.
  rewrite (all_no_char Char.is_digit "@" ds) by auto.
  rewrite orb_false_r. destruct (Ascii.eqb c "@") eqn:E; auto.
  apply Ascii.eqb_eq in E. subst c. discriminate.
Qed.

(** A passport number matches none of the other patterns. *)
Lemma passport_text_not_phone (text : string) :
  Re.fullmatch PersonalInfoFinder.passport_re text = true ->
  Re.fullmatch PersonalInfoFinder.phone_re text = false.
Proof.
  intros H. apply passport_re_accepts in H.
  destruct H as (c & ds & -> & _ & L & _).
  destruct (Re.fullmatch _ _) eqn:E; auto.
  apply phone_re_accepts in E. simpl in E. lia.
Qed.

Lemma passport_text_not_aadhar (text : string) :
  Re.fullmatch PersonalInfoFinder.passport_re text = true ->
  Re.fullmatch PersonalInfoFinder.aadhar_re text = false.
Proof.
  intros H. apply passport_re_accepts in H.
  destruct H as (c & ds & -> & _ & L & _).
  destruct (Re.fullmatch _ _) eqn:E; auto.
  apply aadhar_re_accepts in E.
  destruct E as (g1 & s1 & g2 & s2 & g3 & E & [L1 _] & [L2 _] & [L3 _] & _).
  apply (f_equal String.length) in E. simpl in E.
  rewrite !str_length_app in E. lia.
Qed.

Lemma passport_text_not_email (text : string) :
  Re.fullmatch PersonalInfoFinder.passport_re text = true ->
  Re.fullmatch PersonalInfoFinder.email_re text = false.
Proof.
  intros H. apply passport_text_no_at in H.
  destruct (Re.fullmatch _ _) eqn:E; auto.
  apply email_re_has_at in E. congruence.
Qed.

(** ** Masks of [hide_value] *)

(** The phone mask of [hide_value]: on a text of four characters or more
    it keeps the length, and on a shorter text it replaces nothing. *)
Theorem phone_mask_shape (field : string) (v : value) (text : string) :
  truthy v = true ->
  text = Str.strip (py_str v) ->
  field = "phone" \/ Re.fullmatch PersonalInfoFinder.phone_re text = true ->
  exists masked,
    PersonalInfoHider.hide_value field v = Ok (VStr masked)
    /\ (4 <= String.length text ->
        String.length masked = String.length text
        /\ masked = Str.take 2 text
                    ++ Str.repeat "X" (Z.of_nat (String.length text - 4))
                    ++ Str.last 2 text)
    /\ (String.length text < 4 -> masked = Str.take 2 text ++ Str.last 2 text).
Proof.
  intros Ht Htext Hrule.
  exists (Str.take 2 text ++ Str.repeat "X" (Str.len_minus text 4)
          ++ Str.last 2 text).
  split; [|split].
  - unfold PersonalInfoHider.hide_value. rewrite Ht. cbn [negb].
    rewrite <- Htext.
    assert ((field =? "phone")
            || Re.fullmatch PersonalInfoFinder.phone_re text = true) as ->.
    { destruct Hrule as [-> | ->]; [reflexivity | apply orb_true_r]. }
    reflexivity.
  - intros L. unfold Str.len_minus. split.
    + rewrite !str_length_app, take_length, last_length, repeat_length. lia.
    + do 3 f_equal. lia.
  - intros L. rewrite repeat_nonpositive; [reflexivity|].
    unfold Str.len_minus. lia.
Qed.

Lemma phone_mask_shape_witness :
  exists masked,
    PersonalInfoHider.hide_value "mobile" (VInt 9876543210) = Ok (VStr masked)
    /\ (4 <= String.length "9876543210" ->
        String.length masked = String.length "9876543210"
        /\ masked = Str.take 2 "9876543210"
                    ++ Str.repeat "X" (Z.of_nat (String.length "9876543210" - 4))
                    ++ Str.last 2 "9876543210")
    /\ (String.length "9876543210" < 4 ->
        masked = Str.take 2 "9876543210" ++ Str.last 2 "9876543210").
Proof.
  apply (phone_mask_shape "mobile" (VInt 9876543210) "9876543210").
  - reflexivity.
  - reflexivity.
  - right. reflexivity.
Defined.

(** The e-mail mask of [hide_value]: the text is cut at its first [@]; what
    follows the cut is kept, the part before it keeps its first two
    characters, and the length does not change. *)
Theorem email_mask_shape (field : string) (v : value) (text : string) :
  truthy v = true ->
  text = Str.strip (py_str v) ->
  Str.mem field ["phone"; "aadhar"; "passport"] = false ->
  Re.fullmatch PersonalInfoFinder.email_re text = true ->
  exists user domain masked,
    text = user ++ "@" ++ domain
    /\ Str.contains "@" user = false
    /\ PersonalInfoHider.hide_value field v = Ok (VStr (masked ++ "@" ++ domain))
    /\ String.length masked = String.length user
    /\ Str.take 2 masked = Str.take 2 user
    /\ Str.all (Ascii.eqb "X") (Str.drop 2 masked) = true.
Proof.
  intros Ht Htext Hf Hmail.
  pose proof (email_re_has_at _ Hmail) as Hat.
  destruct (split1_cut "@" text Hat) as (user & domain & Hs & Et & Hu).
  exists user, domain,
    (Str.take 2 user ++ Str.repeat "X" (Str.len_minus user 2)).
  assert (Hp : Re.fullmatch PersonalInfoFinder.phone_re text = false).
  { destruct (Re.fullmatch PersonalInfoFinder.phone_re text) eqn:E; auto.
    apply phone_text_no_at in E. congruence. }
  assert (Ha : Re.fullmatch PersonalInfoFinder.aadhar_re text = false).
  { destruct (Re.fullmatch PersonalInfoFinder.aadhar_re text) eqn:E; auto.
    apply aadhar_text_no_at in E. congruence. }
  simpl in Hf. rewrite orb_false_r in Hf.
  apply orb_false_iff in Hf. destruct Hf as [F1 Hf].
  apply orb_false_iff in Hf. destruct Hf as [F2 F3].
  repeat split; auto.
  - unfold PersonalInfoHider.hide_value. rewrite Ht. cbn [negb].
    rewrite <- Htext, F1, F2, F3, Hp, Ha, Hmail, Hs. cbn [orb].
    unfold PersonalInfoHider.mask_handle. now rewrite str_app_assoc.
  - rewrite str_length_app, take_length, repeat_length.
    unfold Str.len_minus. lia.
  - destruct user as [|a [|b u]]; reflexivity.
  - destruct user as [|a [|b u]]; try reflexivity.
    change (Str.drop 2 (Str.take 2 (String a (String b u))
                        ++ Str.repeat "X" (Str.len_minus (String a (String b u)) 2)))
      with (Str.repeat "X" (Str.len_minus (String a (String b u)) 2)).
    apply repeat_all.
Qed.

Lemma email_mask_shape_witness :
  exists user domain masked,
    "john.doe@example.com" = user ++ "@" ++ domain
    /\ Str.contains "@" user = false
    /\ PersonalInfoHider.hide_value "contact" (VStr " john.doe@example.com")
       = Ok (VStr (masked ++ "@" ++ domain))
    /\ String.length masked = String.length user
    /\ Str.take 2 masked = Str.take 2 user
    /\ Str.all (Ascii.eqb "X") (Str.drop 2 masked) = true.
Proof.
  apply (email_mask_shape "contact" (VStr " john.doe@example.com")
           "john.doe@example.com"); reflexivity.
Defined.

(** ** What a record loop leaves under each key *)

Section ForEachGet.
Variable body : record -> string * value -> result record.
Variable stored : string -> value -> value -> Prop.
Hypothesis body_stores :
  forall acc item acc',
    body acc item = Ok acc' ->
    exists v', acc' = Dict.set (fst item) v' acc /\ stored (fst item) (snd item) v'.

Lemma for_each_get_other (items : record) (k : string) :
  ~ In k (Dict.keys items) ->
  forall acc out,
    for_each body items acc = Ok out -> Dict.get k out = Dict.get k acc.
Proof.
  unfold Dict.keys.
  induction items as [|[k0 v0] items IH]; simpl; intros Hk acc out.
  - now intros [= <-].
  - destruct (body acc (k0, v0)) as [acc'|e] eqn:Hb; simpl; [|discriminate].
    intros H.
    assert (Hk' : ~ In k (map fst items)) by (intros Hx; apply Hk; now right).
    rewrite (IH Hk' _ _ H).
    destruct (body_stores _ _ _ Hb) as (v' & -> & _). simpl.
    apply get_set_other. intros ->. apply Hk. now left.
Qed.

Lemma for_each_get (items : record) :
  NoDup (Dict.keys items) ->
  forall acc out,
    for_each body items acc = Ok out ->
    forall k v,
      In (k, v) items -> exists v', Dict.get k out = Some v' /\ stored k v v'.
Proof.
  unfold Dict.keys.
  induction items as [|[k0 v0] items IH]; simpl; intros Hnd acc out; [tauto|].
  inversion Hnd as [|? ? Hfresh Hnd']; subst.
  destruct (body acc (k0, v0)) as [acc'|e] eqn:Hb; simpl; [|discriminate].
  intros H k v [[= -> ->] | Hin].
  - destruct (body_stores _ _ _ Hb) as (v' & -> & Hst). simpl in *.
    exists v'. split; auto.
    rewrite (for_each_get_other items k Hfresh _ _ H). apply get_set_same.
  - eapply IH; eauto.
Qed.

Lemma for_each_raises_at (items : record) (item : string * value) :
  In item items ->
  (forall acc, exists e, body acc item = Raise e) ->
  forall acc, exists e, for_each body items acc = Raise e.
Proof.
  intros Hin Hr. induction items as [|x items IH]; [destruct Hin|].
  intros acc. simpl.
  destruct (body acc x) as [acc'|e] eqn:Hb; simpl; [|eauto].
  destruct Hin as [-> | Hin]; [|auto].
  destruct (Hr acc) as [e He]. congruence.
Qed.

End ForEachGet.

Lemma hide_item_effect r flags acc item acc' :
  PersonalInfoHider.hide_item r flags acc item = Ok acc' ->
  exists v',
    acc' = Dict.set (fst item) v' acc
    /\ (if flagged (fst item) flags || PersonalInfoFinder.check_combined r
        then PersonalInfoHider.hide_value (fst item) (snd item) = Ok v'
        else v' = snd item).
Proof.
  destruct item as [k v]. unfold PersonalInfoHider.hide_item. simpl.
  destruct (flagged k flags || PersonalInfoFinder.check_combined r).
  - destruct (PersonalInfoHider.hide_value k v) as [v'|e]; simpl; [|discriminate].
    intros [= <-]. eauto.
  - intros [= <-]. eauto.
Qed.

Lemma redact_item_effect data flags acc item acc' :
  PIIRedactor.redact_item data flags acc item = Ok acc' ->
  exists v',
    acc' = Dict.set (fst item) v' acc
    /\ (if flagged (fst item) flags
           || ((Str.mem (fst item) PIIDetector.name_fields
                || Str.mem (fst item) PIIDetector.email_fields
                || Str.mem (fst item) PIIDetector.address_fields)
               && PIIDetector.detect_combinatorial_pii data)
        then PIIRedactor.redact_value (fst item) (snd item) = Ok v'
        else v' = snd item).
Proof.
  destruct item as [k v]. unfold PIIRedactor.redact_item.
  cbv beta iota delta [fst snd].
  destruct (flagged k flags);
    destruct (Str.mem k PIIDetector.name_fields
              || Str.mem k PIIDetector.email_fields
              || Str.mem k PIIDetector.address_fields);
    destruct (PIIDetector.detect_combinatorial_pii data);
    destruct (PIIRedactor.redact_value k v) as [v'|e];
    cbv beta iota delta [bind orb andb];
    try discriminate; intros [= <-]; eauto.
Qed.

(** ** Redaction, field by field *)

(** [hide_record] with a true flag: every field of the record is in the
    result; it holds what [hide_value] makes of it when its standalone
    verdict is true or the record is combinatorially PII, and its own value
    otherwise. *)
Theorem hide_record_fields (r out : record) (field : string) (v : value) :
  Dict.wf r ->
  PersonalInfoHider.hide_record r true = Ok out ->
  In (field, v) r ->
  exists v',
    Dict.get field out = Some v'
    /\ (if flagged field (PersonalInfoFinder.check_single r)
           || PersonalInfoFinder.check_combined r
        then PersonalInfoHider.hide_value field v = Ok v'
        else v' = v).
Proof.
  intros Hwf Hrun Hin. unfold PersonalInfoHider.hide_record in Hrun.
  cbn [negb] in Hrun.
  exact (for_each_get _
           (fun k x x' =>
              if flagged k (PersonalInfoFinder.check_single r)
                 || PersonalInfoFinder.check_combined r
              then PersonalInfoHider.hide_value k x = Ok x'
              else x' = x)
           (hide_item_effect r (PersonalInfoFinder.check_single r))
           r Hwf [] out Hrun field v Hin).
Qed.

Lemma hide_record_fields_witness :
  exists v',
    Dict.get "phone" [("phone", VStr "98XXXXXX10")] = Some v'
    /\ (if flagged "phone" (PersonalInfoFinder.check_single phone_record)
           || PersonalInfoFinder.check_combined phone_record
        then PersonalInfoHider.hide_value "phone" (VStr "9876543210") = Ok v'
        else v' = VStr "9876543210").
Proof.
  apply (hide_record_fields phone_record [("phone", VStr "98XXXXXX10")]
           "phone" (VStr "9876543210")).
  - apply wf_singleton.
  - reflexivity.
  - simpl. auto.
Defined.

(** [redact_record] with a true flag, field by field: a field goes through
    [redact_value] when its standalone verdict is true, or when it belongs
    to a name, e-mail or address family and the record is combinatorially
    PII; any other field keeps its value. *)
Theorem redact_record_fields (data out : record) (field : string) (v : value) :
  Dict.wf data ->
  PIIRedactor.redact_record data true = Ok out ->
  In (field, v) data ->
  exists v',
    Dict.get field out = Some v'
    /\ (if flagged field (PIIDetector.detect_standalone_pii data)
           || ((Str.mem field PIIDetector.name_fields
                || Str.mem field PIIDetector.email_fields
                || Str.mem field PIIDetector.address_fields)
               && PIIDetector.detect_combinatorial_pii data)
        then PIIRedactor.redact_value field v = Ok v'
        else v' = v).
Proof.
  intros Hwf Hrun Hin. unfold PIIRedactor.redact_record in Hrun.
  cbn [negb] in Hrun.
  exact (for_each_get _
           (fun k x x' =>
              if flagged k (PIIDetector.detect_standalone_pii data)
                 || ((Str.mem k PIIDetector.name_fields
                      || Str.mem k PIIDetector.email_fields
                      || Str.mem k PIIDetector.address_fields)
                     && PIIDetector.detect_combinatorial_pii data)
              then PIIRedactor.redact_value k x = Ok x'
              else x' = x)
           (redact_item_effect data (PIIDetector.detect_standalone_pii data))
           data Hwf [] out Hrun field v Hin).
Qed.

Lemma redact_record_fields_witness :
  exists v',
    Dict.get "phone" [("phone", VStr "98XXXXXX10")] = Some v'
    /\ (if flagged "phone" (PIIDetector.detect_standalone_pii phone_record)
           || ((Str.mem "phone" PIIDetector.name_fields
                || Str.mem "phone" PIIDetector.email_fields
                || Str.mem "phone" PIIDetector.address_fields)
               && PIIDetector.detect_combinatorial_pii phone_record)
        then PIIRedactor.redact_value "phone" (VStr "9876543210") = Ok v'
        else v' = VStr "9876543210").
Proof.
  apply (redact_record_fields phone_record [("phone", VStr "98XXXXXX10")]
           "phone" (VStr "9876543210")).
  - apply wf_singleton.
  - reflexivity.
  - simpl. auto.
Defined.

(** ** When [hide_record] raises *)

Lemma name_field_cases (field : string) :
  Str.mem field PersonalInfoFinder.names = true ->
  field = "name" \/ field = "first_name" \/ field = "last_name".
Proof.
  unfold PersonalInfoFinder.names. simpl. rewrite orb_false_r.
  intros H. apply orb_true_iff in H. destruct H as [H | H].
  - apply String.eqb_eq in H. auto.
  - apply orb_true_iff in H. destruct H as [H | H];
      apply String.eqb_eq in H; auto.
Qed.

Lemma blank_text_cases (v : value) :
  blank_text v = true -> truthy v = true /\ Str.strip (py_str v) = "".
Proof.
  unfold blank_text. intros H. apply andb_true_iff in H.
  destruct H as [Ht Hs]. apply String.eqb_eq in Hs. auto.
Qed.

Lemma hide_value_blank_name (field : string) (v : value) :
  Str.mem field PersonalInfoFinder.names = true ->
  blank_text v = true ->
  PersonalInfoHider.hide_value field v = Raise IndexError.
Proof.
  intros Hf Hb. apply blank_text_cases in Hb. destruct Hb as [Ht Hs].
  unfold PersonalInfoHider.hide_value. rewrite Ht, Hs. cbn [negb].
  destruct (name_field_cases _ Hf) as [-> | [-> | ->]]; vm_compute; reflexivity.
Qed.

Lemma check_field_blank_name (field : string) (v : value) :
  Str.mem field PersonalInfoFinder.names = true ->
  blank_text v = true ->
  PersonalInfoFinder.check_field field v = Some false.
Proof.
  intros Hf Hb. apply blank_text_cases in Hb. destruct Hb as [Ht Hs].
  unfold PersonalInfoFinder.check_field. rewrite Ht, Hs. cbn [negb].
  destruct (name_field_cases _ Hf) as [-> | [-> | ->]]; vm_compute; reflexivity.
Qed.

(** [hide_record] raises exactly when the flag is true, the record is
    combinatorially PII and one of [name], [first_name], [last_name] holds
    text that is blank but not empty; the exception is [IndexError]. *)
Theorem hide_record_raises_iff (r : record) (flag : bool) (e : exn) :
  Dict.wf r ->
  PersonalInfoHider.hide_record r flag = Raise e
  <-> e = IndexError
      /\ flag = true
      /\ PersonalInfoFinder.check_combined r = true
      /\ exists field v,
           In (field, v) r
           /\ Str.mem field PersonalInfoFinder.names = true
           /\ blank_text v = true.
Proof.
  intros Hwf. unfold PersonalInfoHider.hide_record.
  destruct flag; cbn [negb].
  2:{ split; [discriminate | intros (_ & H & _); discriminate]. }
  set (flags := PersonalInfoFinder.check_single r).
  split.
  - intros H. apply (for_each_raises _ r) in H.
    destruct H as (acc & [k v] & Hin & Hr).
    unfold PersonalInfoHider.hide_item in Hr.
    destruct (flagged k flags || PersonalInfoFinder.check_combined r) eqn:Hc;
      [|discriminate].
    destruct (PersonalInfoHider.hide_value k v) as [v'|e'] eqn:Hv;
      [discriminate|].
    simpl in Hr. injection Hr as ->.
    apply hide_value_raises in Hv. destruct Hv as (-> & Hn & Hb).
    assert (Hflag : flagged k flags = false).
    { unfold flagged, flags.
      rewrite check_single_get, (get_member _ _ _ Hwf Hin) by assumption.
      now rewrite (check_field_blank_name _ _ Hn Hb). }
    rewrite Hflag in Hc. simpl in Hc.
    repeat split; auto. exists k, v. auto.
  - intros (-> & _ & Hc & k & v & Hin & Hn & Hb).
    destruct (for_each_raises_at (PersonalInfoHider.hide_item r flags) r (k, v) Hin)
      with (acc := @nil (string * value)) as [e He].
    { intros acc. exists IndexError. unfold PersonalInfoHider.hide_item.
      rewrite Hc, orb_true_r, (hide_value_blank_name _ _ Hn Hb). reflexivity. }
    rewrite He. f_equal.
    apply (for_each_raises _ r) in He.
    destruct He as (acc & [k' v'] & _ & Hr).
    unfold PersonalInfoHider.hide_item in Hr.
    destruct (flagged k' flags || PersonalInfoFinder.check_combined r);
      [|discriminate].
    destruct (PersonalInfoHider.hide_value k' v') as [x|e'] eqn:Hv;
      [discriminate|].
    simpl in Hr. injection Hr as ->.
    apply hide_value_raises in Hv. tauto.
Qed.

Lemma hide_record_raises_iff_witness :
  PersonalInfoHider.hide_record blank_name_record true = Raise IndexError
  <-> IndexError = IndexError
      /\ true = true
      /\ PersonalInfoFinder.check_combined blank_name_record = true
      /\ exists field v,
           In (field, v) blank_name_record
           /\ Str.mem field PersonalInfoFinder.names = true
           /\ blank_text v = true.
Proof.
  apply (hide_record_raises_iff blank_name_record true IndexError).
  repeat constructor; simpl; intuition discriminate.
Defined.

(** ** Passport numbers under other names *)

Lemma passport_text_truthy (v : value) :
  Re.fullmatch PersonalInfoFinder.passport_re (Str.strip (py_str v)) = true ->
  truthy v = true.
Proof.
  intros H. destruct (truthy v) eqn:Ht; auto.
  apply falsy_cases in Ht.
  destruct Ht as [-> | [-> | [-> | ->]]]; vm_compute in H; discriminate.
Qed.

(** A value whose trimmed text is a passport number, under a field that is
    neither [phone], [aadhar], [passport] nor a name or address field, has a
    true standalone verdict, and [hide_value] returns it as it is; so does
    [hide_record]. *)
Theorem passport_text_unmasked (r : record) (field : string) (v : value) :
  Dict.wf r ->
  In (field, v) r ->
  Re.fullmatch PersonalInfoFinder.passport_re (Str.strip (py_str v)) = true ->
  Str.mem field
    ["phone"; "aadhar"; "passport"; "name"; "first_name"; "last_name";
     "address"; "city"; "pin_code"; "state"] = false ->
  Dict.get field (PersonalInfoFinder.check_single r) = Some true
  /\ PersonalInfoFinder.detect_pii r = true
  /\ PersonalInfoHider.hide_value field v = Ok v
  /\ forall out,
       PersonalInfoHider.hide_record r true = Ok out ->
       Dict.get field out = Some v.
Proof.
  intros Hwf Hin Hp Hf.
  pose proof (passport_text_truthy _ Hp) as Ht.
  pose proof (passport_text_not_phone _ Hp) as Hph.
  pose proof (passport_text_not_aadhar _ Hp) as Haa.
  pose proof (passport_text_not_email _ Hp) as Hem.
  pose proof (passport_text_no_at _ Hp) as Hat.
  simpl in Hf. rewrite orb_false_r in Hf.
  repeat (apply orb_false_iff in Hf; destruct Hf as [? Hf]).
  assert (Hflag : Dict.get field (PersonalInfoFinder.check_single r) = Some true).
  { rewrite check_single_get, (get_member _ _ _ Hwf Hin) by assumption.
    unfold PersonalInfoFinder.check_field. rewrite Ht. cbn [negb].
    rewrite Hph, Haa, Hp.
    repeat match goal with H : (field =? _) = false |- _ => rewrite H; clear H end.
    reflexivity. }
  assert (Hhide : PersonalInfoHider.hide_value field v = Ok v).
  { unfold PersonalInfoHider.hide_value. rewrite Ht. cbn [negb].
    rewrite Hph, Haa, Hem, Hat. unfold Str.mem. simpl existsb.
    repeat match goal with H : (field =? _) = false |- _ => rewrite H; clear H end.
    reflexivity. }
  repeat split; auto.
  - unfold PersonalInfoFinder.detect_pii. now rewrite (any_value_get _ _ Hflag).
  - intros out Hrun.
    destruct (hide_record_fields r out field v Hwf Hrun Hin) as (v' & Hg & Hv).
    unfold flagged in Hv. rewrite Hflag in Hv. simpl in Hv. congruence.
Qed.

Lemma passport_text_unmasked_witness :
  Dict.get "doc" (PersonalInfoFinder.check_single unnamed_passport_record)
  = Some true
  /\ PersonalInfoFinder.detect_pii unnamed_passport_record = true
  /\ PersonalInfoHider.hide_value "doc" (VStr "A1234567") = Ok (VStr "A1234567")
  /\ forall out,
       PersonalInfoHider.hide_record unnamed_passport_record true = Ok out ->
       Dict.get "doc" out = Some (VStr "A1234567").
Proof.
  apply (passport_text_unmasked unnamed_passport_record "doc" (VStr "A1234567")).
  - apply wf_singleton.
  - simpl. auto.
  - reflexivity.
  - reflexivity.
Defined.

(** ** Records without PII *)

Lemma any_value_set_false (k : string) (d : Dict.t bool) :
  any_value d = false -> any_value (Dict.set k false d) = false.
Proof.
  unfold any_value, Dict.values.
  induction d as [|[k' b] d IH]; simpl; auto.
  intros H. apply orb_false_iff in H. destruct H as [Hb Hd].
  destruct (k' =? k); simpl.
  - now rewrite Hd.
  - now rewrite Hb, IH.
Qed.

Lemma verdicts_all_false (verdict : string -> value -> option bool)
    (r : record) :
  (forall k v, In (k, v) r -> verdict k v <> Some true) ->
  forall found,
    any_value found = false ->
    any_value
      (fold_left
         (fun found item =>
            match verdict (fst item) (snd item) with
            | Some b => Dict.set (fst item) b found
            | None => found
            end) r found) = false.
Proof.
  induction r as [|[k v] r IH]; simpl; intros Hv found Hf; auto.
  apply IH; [intros; apply Hv; auto|].
  specialize (Hv k v (or_introl eq_refl)).
  destruct (verdict k v) as [[|]|]; auto; [congruence|].
  now apply any_value_set_false.
Qed.

Lemma add_group_other (r : record) (groups : StrSet.t) (k : string) (v : value) :
  Str.mem k PersonalInfoFinder.names = false ->
  Str.mem k PersonalInfoFinder.emails = false ->
  Str.mem k PersonalInfoFinder.addresses = false ->
  PersonalInfoFinder.add_group r groups (k, v) = groups.
Proof.
  intros H1 H2 H3. unfold PersonalInfoFinder.add_group.
  rewrite H1, H2, H3. now destruct (negb (truthy v) || _).
Qed.

(** A record in which no truthy value stands under a name the detector
    knows, matches one of the four patterns or is a payment handle is not
    PII for [PersonalInfoFinder.detect_pii]. *)
Theorem plain_record_not_pii (r : record) :
  (forall field v,
     In (field, v) r ->
     truthy v = true ->
     Str.mem field
       ["phone"; "aadhar"; "passport"; "email"; "name"; "first_name";
        "last_name"; "address"; "city"; "pin_code"; "state"] = false
     /\ Re.fullmatch PersonalInfoFinder.phone_re (Str.strip (py_str v)) = false
     /\ Re.fullmatch PersonalInfoFinder.aadhar_re (Str.strip (py_str v)) = false
     /\ Re.fullmatch PersonalInfoFinder.passport_re (Str.strip (py_str v)) = false
     /\ Re.fullmatch PersonalInfoFinder.email_re (Str.strip (py_str v)) = false
     /\ Spec.payment_handle (Str.strip (py_str v)) = false) ->
  PersonalInfoFinder.detect_pii r = false.
Proof.
  intros H. unfold PersonalInfoFinder.detect_pii.
  assert (Hs : any_value (PersonalInfoFinder.check_single r) = false).
  { apply verdicts_all_false; [|reflexivity].
    intros k v Hin. unfold PersonalInfoFinder.check_field.
    destruct (truthy v) eqn:Ht; cbn [negb]; [|discriminate].
    destruct (H k v Hin Ht) as (Hf & H1 & H2 & H3 & H4 & H5).
    simpl in Hf. rewrite orb_false_r in Hf.
    repeat (apply orb_false_iff in Hf; destruct Hf as [? Hf]).
    rewrite H1, H2, H3, H4.
    repeat match goal with E : (k =? _) = false |- _ => rewrite E; clear E end.
    cbn [orb].
    destruct (Str.contains "@" _); [|discriminate].
    intros Hx. apply handle_branch in Hx. congruence. }
  rewrite Hs. unfold PersonalInfoFinder.check_combined.
  assert (Hg : forall items groups,
             (forall k v, In (k, v) items -> In (k, v) r) ->
             (forall k v, In (k, v) items -> truthy v = false
                 \/ (Str.mem k PersonalInfoFinder.names = false
                     /\ Str.mem k PersonalInfoFinder.emails = false
                     /\ Str.mem k PersonalInfoFinder.addresses = false)) ->
             fold_left (PersonalInfoFinder.add_group r) items groups = groups).
  { induction items as [|[k v] items IH]; intros groups Hsub Hc;
      cbn [fold_left]; auto.
    assert (PersonalInfoFinder.add_group r groups (k, v) = groups) as ->.
    { destruct (Hc k v (or_introl eq_refl)) as [Ht | (A & B & C)].
      - unfold PersonalInfoFinder.add_group. now rewrite Ht.
      - now apply add_group_other. }
    apply IH; intros; [apply Hsub | apply Hc]; now right. }
  rewrite Hg; [reflexivity | auto |].
  intros k v Hin. destruct (truthy v) eqn:Ht; [right | now left].
  destruct (H k v Hin Ht) as (Hf & _).
  simpl in Hf. rewrite orb_false_r in Hf.
  repeat (apply orb_false_iff in Hf; destruct Hf as [? Hf]).
  unfold PersonalInfoFinder.names, PersonalInfoFinder.emails,
    PersonalInfoFinder.addresses, Str.mem. simpl existsb.
  repeat match goal with E : (k =? _) = false |- _ => rewrite E; clear E end.
  auto.
Qed.

Lemma plain_record_not_pii_witness :
  PersonalInfoFinder.detect_pii plain_record = false.
Proof.
  apply (plain_record_not_pii plain_record).
  intros field v [[= <- <-] | [[= <- <-] | []]] _; vm_compute; auto 10.
Defined.

(** ** The combinatorial checks *)

Lemma mem_in (x : string) (s : list string) : Str.mem x s = true <-> In x s.
Proof.
  unfold Str.mem. rewrite existsb_exists. split.
  - intros (y & Hy & E). apply String.eqb_eq in E. now subst.
  - intros H. exists x. split; auto. apply String.eqb_refl.
Qed.

Lemma set_add_in (x y : string) (s : StrSet.t) :
  In y (StrSet.add x s) <-> y = x \/ In y s.
Proof.
  unfold StrSet.add. destruct (Str.mem x s) eqn:E.
  - apply mem_in in E. split; [auto | intros [-> | H]; auto].
  - rewrite in_app_iff. simpl. intuition auto.
Qed.

Lemma set_add_nodup (x : string) (s : StrSet.t) :
  NoDup s -> NoDup (StrSet.add x s).
Proof.
  unfold StrSet.add. destruct (Str.mem x s) eqn:E; auto.
  intros H. apply NoDup_app; auto.
  - repeat constructor. simpl. tauto.
  - intros y Hy [<- | []]. apply mem_in in Hy. congruence.
Qed.

Section GroupFold.
Variable group_of : string * value -> option string.
Variable step : StrSet.t -> string * value -> StrSet.t.
Hypothesis step_spec :
  forall acc item,
    step acc item =
    match group_of item with
    | Some g => StrSet.add g acc
    | None => acc
    end.

Lemma fold_groups_nodup (items : record) :
  forall acc, NoDup acc -> NoDup (fold_left step items acc).
Proof.
  induction items as [|item items IH]; simpl; intros acc H; auto.
  apply IH. rewrite step_spec.
  destruct (group_of item); auto using set_add_nodup.
Qed.

Lemma fold_groups_in (items : record) (g : string) :
  forall acc,
    In g (fold_left step items acc)
    <-> In g acc \/ exists item, In item items /\ group_of item = Some g.
Proof.
  induction items as [|item items IH]; simpl; intros acc.
  - split; [auto | intros [H | (x & [] & _)]; auto].
  - rewrite IH, step_spec. split.
    + intros [H | (x & Hx & E)].
      * destruct (group_of item) as [g'|] eqn:Eg; auto.
        apply set_add_in in H. destruct H as [-> | H]; eauto.
      * eauto.
    + intros [H | (x & [-> | Hx] & E)].
      * left. destruct (group_of item); auto. apply set_add_in. auto.
      * left. rewrite E. apply set_add_in. auto.
      * eauto.
Qed.

Lemma fold_groups_has (items : record) (g : string) :
  Str.mem g (fold_left step items []) = has_group group_of g items.
Proof.
  apply eq_true_iff_eq. rewrite mem_in, fold_groups_in.
  unfold has_group. rewrite existsb_exists. split.
  - intros [[] | (x & Hx & E)]. exists x. rewrite E.
    split; auto. apply String.eqb_refl.
  - intros (x & Hx & E). right. exists x. split; auto.
    destruct (group_of x) as [g'|]; [|discriminate].
    apply String.eqb_eq in E. now subst.
Qed.

End GroupFold.

(** A set of group names without repetition, among three names, has two
    members or more exactly when two of the three names are in it. *)
Lemma two_groups (s : StrSet.t) :
  NoDup s ->
  (forall g, In g s -> g = "name" \/ g = "email" \/ g = "address") ->
  (2 <=? StrSet.len s)%nat
  = two_of_three (Str.mem "name" s) (Str.mem "email" s) (Str.mem "address" s).
Proof.
  intros Hnd Hsub.
  set (three := ["name"; "email"; "address"]).
  set (f := filter (fun g => Str.mem g s) three).
  assert (L1 : List.length s <= List.length f).
  { apply NoDup_incl_length; auto. intros g Hg. apply filter_In. split.
    - destruct (Hsub g Hg) as [-> | [-> | ->]]; simpl; auto.
    - now apply mem_in. }
  assert (L2 : List.length f <= List.length s).
  { apply NoDup_incl_length.
    - apply NoDup_filter. repeat constructor; simpl; intuition discriminate.
    - intros g Hg. apply filter_In in Hg. now apply mem_in. }
  unfold StrSet.len. replace (List.length s) with (List.length f) by lia.
  unfold f, three. simpl.
  destruct (Str.mem "name" s), (Str.mem "email" s), (Str.mem "address" s);
    reflexivity.
Qed.

Lemma finder_add_group_spec (r : record) (acc : StrSet.t) (item : string * value) :
  PersonalInfoFinder.add_group r acc item =
  match finder_group_of r item with
  | Some g => StrSet.add g acc
  | None => acc
  end.
Proof.
  destruct item as [k v].
  unfold PersonalInfoFinder.add_group, finder_group_of, finder_counts.
  unfold PersonalInfoFinder.names, PersonalInfoFinder.emails,
    PersonalInfoFinder.addresses, Str.mem. simpl existsb.
  destruct (truthy v); cbn [negb andb orb]; auto.
  destruct (Str.strip (py_str v) =? ""); cbn [negb]; auto.
  destruct (String.eqb_spec k "name") as [-> | N1].
  { cbn [orb andb]; destruct (PersonalInfoFinder._is_full_name v);
      [reflexivity|]. simpl. reflexivity. }
  destruct (String.eqb_spec k "first_name") as [-> | N2].
  { cbn [orb andb]. destruct (PersonalInfoFinder._has_both_names r);
      reflexivity. }
  destruct (String.eqb_spec k "last_name") as [-> | N3].
  { cbn [orb andb]. destruct (PersonalInfoFinder._has_both_names r);
      reflexivity. }
  cbn [orb andb].
  destruct (String.eqb_spec k "email") as [-> | N4].
  { cbn [orb andb]. destruct (Re.fullmatch _ _); reflexivity. }
  cbn [orb andb].
  destruct ((k =? "address") || ((k =? "city") || ((k =? "pin_code")
            || ((k =? "state") || false))));
    cbn [andb]; auto.
  destruct (PersonalInfoFinder._is_full_address r); reflexivity.
Qed.

Lemma finder_group_names (r : record) (item : string * value) (g : string) :
  finder_group_of r item = Some g ->
  g = "name" \/ g = "email" \/ g = "address".
Proof.
  destruct item as [k v]. unfold finder_group_of.
  repeat match goal with
         | |- context [if ?b then _ else _] => destruct b
         end; intros [= <-]; auto.
Qed.

(** [check_combined] is true exactly when two of the three groups are
    added by some item of the record: the order of the fields and the
    number of fields that add a group do not matter. *)
Theorem check_combined_two_groups (r : record) :
  PersonalInfoFinder.check_combined r
  = two_of_three (has_group (finder_group_of r) "name" r)
                 (has_group (finder_group_of r) "email" r)
                 (has_group (finder_group_of r) "address" r).
Proof.
  unfold PersonalInfoFinder.check_combined.
  rewrite two_groups.
  - now rewrite !(fold_groups_has (finder_group_of r) _ (finder_add_group_spec r)).
  - apply (fold_groups_nodup (finder_group_of r) _ (finder_add_group_spec r)).
    constructor.
  - intros g Hg.
    apply (fold_groups_in (finder_group_of r) _ (finder_add_group_spec r)) in Hg.
    destruct Hg as [[] | (item & _ & E)]. eapply finder_group_names; eauto.
Qed.

Lemma detector_add_group_spec (data : record) (acc : StrSet.t)
    (item : string * value) :
  PIIDetector.add_group data acc item =
  match detector_group_of data item with
  | Some g => StrSet.add g acc
  | None => acc
  end.
Proof.
  destruct item as [k v].
  unfold PIIDetector.add_group, detector_group_of, detector_counts.
  unfold PIIDetector.name_fields, PIIDetector.email_fields,
    PIIDetector.address_fields, Str.mem. simpl existsb.
  destruct (is_none v); cbn [negb andb orb]; auto.
  destruct (Str.strip (py_str v) =? ""); cbn [negb]; auto.
  destruct (String.eqb_spec k "name") as [-> | N1]; [reflexivity|].
  destruct (String.eqb_spec k "first_name") as [-> | N2].
  { cbn [orb andb]. destruct (PIIDetector._is_full_name (py_str v));
      [reflexivity|]. destruct (PIIDetector._has_both_names data); reflexivity. }
  destruct (String.eqb_spec k "last_name") as [-> | N3].
  { cbn [orb andb]. destruct (PIIDetector._is_full_name (py_str v));
      [reflexivity|]. destruct (PIIDetector._has_both_names data); reflexivity. }
  cbn [orb andb].
  destruct (String.eqb_spec k "email") as [-> | N4].
  { cbn [orb andb]. destruct (Re.search _ _); reflexivity. }
  cbn [orb andb].
  destruct ((k =? "address") || ((k =? "city") || ((k =? "pin_code")
            || ((k =? "state") || false))));
    cbn [andb]; auto.
  destruct (PIIDetector._is_complete_address data); reflexivity.
Qed.

Lemma detector_group_names (data : record) (item : string * value) (g : string) :
  detector_group_of data item = Some g ->
  g = "name" \/ g = "email" \/ g = "address".
Proof.
  destruct item as [k v]. unfold detector_group_of.
  repeat match goal with
         | |- context [if ?b then _ else _] => destruct b
         end; intros [= <-]; auto.
Qed.

(** [detect_combinatorial_pii] is true exactly when two of the three groups
    are added by some item of the record. *)
Theorem detect_combinatorial_two_groups (data : record) :
  PIIDetector.detect_combinatorial_pii data
  = two_of_three (has_group (detector_group_of data) "name" data)
                 (has_group (detector_group_of data) "email" data)
                 (has_group (detector_group_of data) "address" data).
Proof.
  unfold PIIDetector.detect_combinatorial_pii.
  rewrite two_groups.
  - now rewrite !(fold_groups_has (detector_group_of data) _
                    (detector_add_group_spec data)).
  - apply (fold_groups_nodup (detector_group_of data) _
             (detector_add_group_spec data)).
    constructor.
  - intros g Hg.
    apply (fold_groups_in (detector_group_of data) _
             (detector_add_group_spec data)) in Hg.
    destruct Hg as [[] | (item & _ & E)]. eapply detector_group_names; eauto.
Qed.

(** ** Larger records *)

Lemma verdicts_source (verdict : string -> value -> option bool) (r : record) :
  forall found k b,
    In (k, b)
      (fold_left
         (fun found item =>
            match verdict (fst item) (snd item) with
            | Some b => Dict.set (fst item) b found
            | None => found
            end) r found) ->
    In (k, b) found \/ exists v, In (k, v) r /\ verdict k v = Some b.
Proof.
  assert (Hset : forall (d : Dict.t bool) k0 b0 k b,
             In (k, b) (Dict.set k0 b0 d) -> In (k, b) d \/ (k = k0 /\ b = b0)).
  { induction d as [|[k1 b1] d IH]; simpl; intros k0 b0 k b.
    - intros [[= <- <-] | []]. auto.
    - destruct (k1 =? k0) eqn:E; simpl.
      + apply String.eqb_eq in E. subst k1.
        intros [[= <- <-] | H]; auto.
      + intros [H | H]; auto. destruct (IH _ _ _ _ H); auto. }
  induction r as [|[k0 v0] r IH]; simpl; intros found k b H; auto.
  apply IH in H. destruct H as [H | (v & Hv & E)]; [|eauto].
  destruct (verdict k0 v0) as [b0|] eqn:E0; auto.
  apply Hset in H. destruct H as [H | [-> ->]]; eauto.
Qed.

Lemma record_get_truthy_incl (r r' : record) (k : string) :
  Dict.wf r' ->
  (forall k v, In (k, v) r -> In (k, v) r') ->
  truthy (record_get k r) = true ->
  record_get k r' = record_get k r.
Proof.
  intros Hwf Hsub. unfold record_get.
  destruct (Dict.get k r) as [v|] eqn:E; [|discriminate].
  intros _. apply get_in, Hsub in E. now rewrite (get_member _ _ _ Hwf E).
Qed.

Lemma has_both_names_incl (r r' : record) :
  Dict.wf r' ->
  (forall k v, In (k, v) r -> In (k, v) r') ->
  PersonalInfoFinder._has_both_names r = true ->
  PersonalInfoFinder._has_both_names r' = true.
Proof.
  intros Hwf Hsub. unfold PersonalInfoFinder._has_both_names.
  intros H. apply andb_true_iff in H. destruct H as [H1 H2].
  rewrite (record_get_truthy_incl r r' _ Hwf Hsub H1),
    (record_get_truthy_incl r r' _ Hwf Hsub H2), H1, H2. reflexivity.
Qed.

Lemma is_full_address_incl (r r' : record) :
  Dict.wf r' ->
  (forall k v, In (k, v) r -> In (k, v) r') ->
  PersonalInfoFinder._is_full_address r = true ->
  PersonalInfoFinder._is_full_address r' = true.
Proof.
  intros Hwf Hsub. unfold PersonalInfoFinder._is_full_address.
  assert (T : forall k, truthy (record_get k r) = true ->
                        truthy (record_get k r') = true).
  { intros k H. now rewrite (record_get_truthy_incl r r' k Hwf Hsub H). }
  pose proof (T "address") as A. pose proof (T "city") as C.
  pose proof (T "pin_code") as P. clear T.
  cbn [filter].
  destruct (truthy (record_get "address" r)),
    (truthy (record_get "address" r'));
    try (exfalso; now discriminate A);
    destruct (truthy (record_get "city" r)),
      (truthy (record_get "city" r'));
    try (exfalso; now discriminate C);
    destruct (truthy (record_get "pin_code" r)),
      (truthy (record_get "pin_code" r'));
    try (exfalso; now discriminate P);
    cbn [List.length Nat.leb]; auto.
Qed.

Lemma finder_group_incl (r r' : record) (item : string * value) (g : string) :
  Dict.wf r' ->
  (forall k v, In (k, v) r -> In (k, v) r') ->
  finder_group_of r item = Some g ->
  finder_group_of r' item = Some g.
Proof.
  intros Hwf Hsub. destruct item as [k v]. unfold finder_group_of.
  pose proof (has_both_names_incl r r' Hwf Hsub) as B.
  pose proof (is_full_address_incl r r' Hwf Hsub) as A.
  unfold PersonalInfoFinder.addresses, Str.mem. simpl existsb.
  destruct (negb (finder_counts v)); [discriminate|].
  destruct (String.eqb_spec k "name") as [-> | N1].
  { cbn [andb orb]. destruct (PersonalInfoFinder._is_full_name v); auto;
      try (simpl; discriminate). }
  cbn [andb].
  destruct (String.eqb_spec k "first_name") as [-> | N2].
  { cbn [orb andb].
    destruct (PersonalInfoFinder._has_both_names r);
      [now rewrite (B eq_refl) | auto; try (simpl; discriminate)]. }
  destruct (String.eqb_spec k "last_name") as [-> | N3].
  { cbn [orb andb].
    destruct (PersonalInfoFinder._has_both_names r);
      [now rewrite (B eq_refl) | auto; try (simpl; discriminate)]. }
  cbn [orb andb].
  destruct ((k =? "email") && Re.fullmatch PersonalInfoFinder.email_re (py_str v));
    auto.
  destruct ((k =? "address") || ((k =? "city") || ((k =? "pin_code")
            || ((k =? "state") || false))));
    cbn [andb]; [|discriminate].
  destruct (PersonalInfoFinder._is_full_address r); [|discriminate].
  now rewrite (A eq_refl).
Qed.

Lemma has_group_incl (r r' : record) (g : string) :
  Dict.wf r' ->
  (forall k v, In (k, v) r -> In (k, v) r') ->
  has_group (finder_group_of r) g r = true ->
  has_group (finder_group_of r') g r' = true.
Proof.
  intros Hwf Hsub. unfold has_group. rewrite !existsb_exists.
  intros ([k v] & Hin & E). exists (k, v). split; [auto|].
  destruct (finder_group_of r (k, v)) as [g'|] eqn:Eg; [|discriminate].
  now rewrite (finder_group_incl r r' _ _ Hwf Hsub Eg).
Qed.

(** A record that holds every field of a PII record, with the same values,
    is PII too: adding fields, in any place, never clears the verdict of
    [PersonalInfoFinder.detect_pii]. *)
Theorem detect_pii_monotone (r r' : record) :
  Dict.wf r' ->
  (forall k v, In (k, v) r -> In (k, v) r') ->
  PersonalInfoFinder.detect_pii r = true ->
  PersonalInfoFinder.detect_pii r' = true.
Proof.
  intros Hwf Hsub. unfold PersonalInfoFinder.detect_pii.
  destruct (any_value (PersonalInfoFinder.check_single r)) eqn:Ea.
  - intros _. unfold any_value in Ea. apply existsb_exists in Ea.
    destruct Ea as ([|] & Hb & Ht); [|discriminate Ht].
    unfold Dict.values in Hb. apply in_map_iff in Hb.
    destruct Hb as ([k b] & E & Hin). simpl in E. subst b.
    apply verdicts_source in Hin. destruct Hin as [[] | (v & Hv & Hc)].
    assert (Dict.get k (PersonalInfoFinder.check_single r') = Some true) as Hg.
    { rewrite check_single_get, (get_member _ _ _ Hwf (Hsub _ _ Hv)) by assumption.
      exact Hc. }
    now rewrite (any_value_get _ _ Hg).
  - rewrite !check_combined_two_groups.
    destruct (any_value (PersonalInfoFinder.check_single r')); auto.
    pose proof (has_group_incl r r' "name" Hwf Hsub) as N.
    pose proof (has_group_incl r r' "email" Hwf Hsub) as M.
    pose proof (has_group_incl r r' "address" Hwf Hsub) as A.
    unfold two_of_three in *.
    destruct (has_group (finder_group_of r) "name" r);
      destruct (has_group (finder_group_of r) "email" r);
      destruct (has_group (finder_group_of r) "address" r);
      try discriminate; intros _;
      destruct (has_group (finder_group_of r') "name" r');
      try (exfalso; now discriminate N);
      destruct (has_group (finder_group_of r') "email" r');
      try (exfalso; now discriminate M);
      destruct (has_group (finder_group_of r') "address" r');
      try (exfalso; now discriminate A);
      reflexivity.
Qed.

Lemma detect_pii_monotone_witness :
  PersonalInfoFinder.detect_pii
    [("city", VStr "Pune"); ("phone", VStr "9876543210")] = true.
Proof.
  apply (detect_pii_monotone phone_record).
  - repeat constructor; simpl; intuition discriminate.
  - simpl. intros k v [H | []]. auto.
  - reflexivity.
Defined.

(** ** [PIIRedactor] *)

(** [redact_value] and [redact_record] never raise: the indexings
    [parts[0]], [parts[1]] and [value_str[0]] are always in range. *)
Theorem redactor_never_raises (data : record) (field : string) (v : value)
    (flag : bool) :
  (exists v', PIIRedactor.redact_value field v = Ok v')
  /\ (exists out, PIIRedactor.redact_record data flag = Ok out).
Proof.
  split; [apply redact_value_total|].
  unfold PIIRedactor.redact_record. destruct flag; cbn [negb]; [|eauto].
  apply for_each_returns. intros acc item _. apply redact_item_returns.
Qed.

(** A field named [phone] in [PIIRedactor]: whatever it holds but [None],
    its standalone verdict is true; a text of fewer than ten characters is
    returned as it is, a longer one keeps its length, its first two and its
    last two characters. *)
Theorem phone_field_redaction (data : record) (v : value) :
  Dict.wf data ->
  In ("phone", v) data ->
  v <> VNone ->
  Dict.get "phone" (PIIDetector.detect_standalone_pii data) = Some true
  /\ (String.length (py_str v) < 10 ->
      PIIRedactor.redact_value "phone" v = Ok v
      /\ forall out,
           PIIRedactor.redact_record data true = Ok out ->
           Dict.get "phone" out = Some v)
  /\ (10 <= String.length (py_str v) ->
      exists masked,
        PIIRedactor.redact_value "phone" v = Ok (VStr masked)
        /\ String.length masked = String.length (py_str v)
        /\ masked = Str.take 2 (py_str v)
                    ++ Str.repeat "X" (Z.of_nat (String.length (py_str v) - 4))
                    ++ Str.last 2 (py_str v)).
Proof.
  intros Hwf Hin Hv.
  assert (Hn : is_none v = false) by (destruct v; simpl; congruence).
  assert (Hflag :
    Dict.get "phone" (PIIDetector.detect_standalone_pii data) = Some true).
  { rewrite detect_standalone_pii_get, (get_member _ _ _ Hwf Hin) by assumption.
    unfold PIIDetector.standalone_field. now rewrite Hn. }
  split; [exact Hflag|]. split.
  - intros L.
    assert (Hr : PIIRedactor.redact_value "phone" v = Ok v).
    { unfold PIIRedactor.redact_value. rewrite Hn. cbn [String.eqb Ascii.eqb Bool.eqb orb].
      apply Nat.leb_gt in L. now rewrite L. }
    split; [exact Hr|]. intros out Hrun.
    destruct (redact_record_fields data out "phone" v Hwf Hrun Hin) as (v' & Hg & Hc).
    unfold flagged in Hc. rewrite Hflag in Hc.
    cbv beta iota delta [orb] in Hc. congruence.
  - intros L.
    exists (Str.take 2 (py_str v) ++ Str.repeat "X" (Str.len_minus (py_str v) 4)
            ++ Str.last 2 (py_str v)).
    split; [|split].
    + unfold PIIRedactor.redact_value. rewrite Hn.
      cbn [String.eqb Ascii.eqb Bool.eqb orb].
      apply Nat.leb_le in L. now rewrite L.
    + rewrite !str_length_app, take_length, last_length, repeat_length.
      unfold Str.len_minus. lia.
    + unfold Str.len_minus. do 3 f_equal. lia.
Qed.

Lemma phone_field_redaction_witness :
  Dict.get "phone" (PIIDetector.detect_standalone_pii [("phone", VInt 12345)])
  = Some true
  /\ (String.length (py_str (VInt 12345)) < 10 ->
      PIIRedactor.redact_value "phone" (VInt 12345) = Ok (VInt 12345)
      /\ forall out,
           PIIRedactor.redact_record [("phone", VInt 12345)] true = Ok out ->
           Dict.get "phone" out = Some (VInt 12345))
  /\ (10 <= String.length (py_str (VInt 12345)) ->
      exists masked,
        PIIRedactor.redact_value "phone" (VInt 12345) = Ok (VStr masked)
        /\ String.length masked = String.length (py_str (VInt 12345))
        /\ masked = Str.take 2 (py_str (VInt 12345))
                    ++ Str.repeat "X"
                         (Z.of_nat (String.length (py_str (VInt 12345)) - 4))
                    ++ Str.last 2 (py_str (VInt 12345))).
Proof.
  apply (phone_field_redaction [("phone", VInt 12345)] (VInt 12345)).
  - apply wf_singleton.
  - simpl. auto.
  - discriminate.
Defined.

(** [redact_record] never changes a [city], [pin_code] or [state] field
    whose text has no ten-digit number and no e-mail address in it: these
    fields count for the address group, but [redact_value] has no mask for
    them. *)
Theorem address_parts_never_masked (data out : record) (field : string)
    (v : value) :
  Dict.wf data ->
  PIIRedactor.redact_record data true = Ok out ->
  In (field, v) data ->
  Str.mem field ["city"; "pin_code"; "state"] = true ->
  Re.search PIIDetector.phone_pattern (py_str v) = false ->
  Str.contains "@" (py_str v) && Re.search PIIDetector.email_pattern (py_str v)
  = false ->
  Dict.get field out = Some v.
Proof.
  intros Hwf Hrun Hin Hf Hp He.
  destruct (redact_record_fields data out field v Hwf Hrun Hin) as (v' & Hg & Hc).
  rewrite Hg. f_equal.
  assert (Hr : PIIRedactor.redact_value field v = Ok v).
  { unfold PIIRedactor.redact_value. destruct (is_none v); auto.
    rewrite Hp, He.
    simpl in Hf. rewrite orb_false_r in Hf.
    apply orb_true_iff in Hf. destruct Hf as [Hf | Hf];
      [|apply orb_true_iff in Hf; destruct Hf as [Hf | Hf]];
      apply String.eqb_eq in Hf; subst field; reflexivity. }
  destruct (flagged field _ || _); congruence.
Qed.

Lemma address_parts_never_masked_witness :
  Dict.get "city"
    [("name", VStr "JXXXXXXX"); ("address", VStr "[REDACTED_ADDRESS]");
     ("city", VStr "Pune")]
  = Some (VStr "Pune").
Proof.
  apply (address_parts_never_masked
           [("name", VStr "John Doe"); ("address", VStr "12 Elm St");
            ("city", VStr "Pune")]
           [("name", VStr "JXXXXXXX"); ("address", VStr "[REDACTED_ADDRESS]");
            ("city", VStr "Pune")]
           "city" (VStr "Pune")).
  - repeat constructor; simpl; intuition discriminate.
  - vm_compute. reflexivity.
  - simpl. auto.
  - reflexivity.
  - reflexivity.
  - reflexivity.
Defined.

(** ** The patterns of the two scripts, compared *)

Lemma space_not_word (c : ascii) :
  Char.is_space c = true -> Char.is_word c = false.
Proof.
  destruct c as [[|] [|] [|] [|] [|] [|] [|] [|]]; vm_compute;
    intros H; try reflexivity; discriminate H.
Qed.

Lemma digit_is_word (c : ascii) :
  Char.is_digit c = true -> Char.is_word c = true.
Proof.
  unfold Char.is_word. intros ->. now rewrite orb_true_r.
Qed.

Lemma upper_is_word (c : ascii) :
  Char.is_upper_az c = true -> Char.is_word c = true.
Proof.
  unfold Char.is_word, Char.is_alpha. now intros ->.
Qed.

Lemma lstrip_cut (s : string) :
  exists lead, s = lead ++ Str.lstrip s /\ Str.all Char.is_space lead = true.
Proof.
  induction s as [|c s IH]; simpl.
  - now exists "".
  - destruct (Char.is_space c) eqn:E.
    + destruct IH as (lead & Es & A). exists (String c lead). simpl.
      now rewrite E, A, <- Es.
    + now exists "".
Qed.

Lemma rstrip_cut (s : string) :
  exists trail, s = Str.rstrip s ++ trail /\ Str.all Char.is_space trail = true.
Proof.
  induction s as [|c s IH]; simpl.
  - now exists "".
  - destruct IH as (trail & Es & A).
    destruct (Str.rstrip s) as [|d r] eqn:Er.
    + destruct (Char.is_space c) eqn:E.
      * exists (String c trail). simpl in *. subst s. now rewrite E, A.
      * exists trail. simpl in *. subst s. auto.
    + exists trail. simpl in *. rewrite <- Es. auto.
Qed.

(** A text is its trimmed form between two runs of space characters. *)
Lemma strip_cut (s : string) :
  exists lead trail,
    s = lead ++ Str.strip s ++ trail
    /\ Str.all Char.is_space lead = true
    /\ Str.all Char.is_space trail = true.
Proof.
  destruct (lstrip_cut s) as (lead & Es & Al).
  destruct (rstrip_cut (Str.lstrip s)) as (trail & Et & At).
  exists lead, trail. unfold Str.strip. now rewrite <- Et.
Qed.

Lemma last_prev_app (pv : option ascii) (a b : string) :
  last_prev pv (a ++ b) = last_prev (last_prev pv a) b.
Proof. revert pv. induction a as [|c a IH]; simpl; auto. Qed.

Lemma last_prev_class (cls : ascii -> bool) (w : string) :
  w <> "" -> Str.all cls w = true ->
  forall pv, exists c, last_prev pv w = Some c /\ cls c = true.
Proof.
  induction w as [|c w IH]; [congruence|]. simpl. intros _ A pv.
  apply andb_true_iff in A. destruct A as [Hc Hw].
  destruct w as [|d w]; [now exists c|].
  apply IH; [discriminate | assumption].
Qed.

Lemma word_before_spaces (lead rest : string) :
  Str.all Char.is_space lead = true ->
  Re.word_before (Re.Pos (last_prev None lead) rest) = false.
Proof.
  intros A. destruct lead as [|c lead]; [reflexivity|].
  destruct (last_prev_class Char.is_space (String c lead)
              ltac:(discriminate) A None) as (x & -> & Hx).
  unfold Re.word_before. simpl. now apply space_not_word.
Qed.

Lemma word_after_spaces (pv : option ascii) (trail : string) :
  Str.all Char.is_space trail = true ->
  Re.word_after (Re.Pos pv trail) = false.
Proof.
  destruct trail as [|c trail]; [reflexivity|]. simpl.
  intros A. apply andb_true_iff in A. destruct A as [Hc _].
  unfold Re.word_after. simpl. now apply space_not_word.
Qed.

Lemma search_from_skip (r : Re.t) (lead rest : string) :
  forall pv,
    Re.match_at r (Re.Pos (last_prev pv lead) rest) = true ->
    Re.search_from r pv (lead ++ rest) = true.
Proof.
  induction lead as [|c lead IH]; simpl; intros pv H.
  - destruct rest; simpl; now rewrite H.
  - rewrite (IH _ H). apply orb_true_r.
Qed.

Lemma reads_rep (cls : ascii -> bool) (w : string) :
  Str.all cls w = true -> reads (Re.Rep (String.length w) (Re.Chr cls)) w.
Proof.
  unfold reads. induction w as [|c w IH]; simpl; intros A pv s.
  - now left.
  - apply andb_true_iff in A. destruct A as [Hc Hw].
    unfold Re.step. simpl. rewrite Hc. simpl.
    apply in_or_app. left. apply (IH Hw).
Qed.

Lemma reads_chr (cls : ascii -> bool) (c : ascii) :
  cls c = true -> reads (Re.Chr cls) (String c "").
Proof.
  unfold reads. intros Hc pv s. simpl. unfold Re.step. simpl. rewrite Hc.
  now left.
Qed.

Lemma reads_seq (a b : Re.t) (w1 w2 : string) :
  reads a w1 -> reads b w2 -> reads (Re.Seq a b) (w1 ++ w2).
Proof.
  unfold reads. intros Ha Hb pv s. apply <- in_run_seq.
  exists (Re.Pos (last_prev pv w1) (w2 ++ s)). split.
  - rewrite str_app_assoc. apply Ha.
  - rewrite last_prev_app. apply Hb.
Qed.

Lemma iterate_chr_reads (cls : ascii -> bool) (w : string) :
  Str.all cls w = true ->
  forall fuel pv s,
    String.length w <= fuel ->
    In (Re.Pos (last_prev pv w) s)
      (Re.iterate (Re.run (Re.Chr cls)) fuel (Re.Pos pv (w ++ s))).
Proof.
  induction w as [|c w IH]; simpl; intros A fuel pv s L.
  - destruct fuel; now left.
  - apply andb_true_iff in A. destruct A as [Hc Hw].
    destruct fuel as [|n]; [lia|]. simpl. right.
    unfold Re.step. simpl. rewrite Hc. simpl.
    apply in_or_app. left. apply (IH Hw). lia.
Qed.

Lemma reads_star (cls : ascii -> bool) (w : string) :
  Str.all cls w = true -> reads (Re.Star (Re.Chr cls)) w.
Proof.
  unfold reads. intros A pv s. simpl. apply iterate_chr_reads; auto.
  rewrite str_length_app. lia.
Qed.

(** A pattern that begins with [\b] is found at a text that begins with a
    word character, after a run of spaces, when the rest of the pattern
    matches there. *)
Lemma search_after_spaces (x : Re.t) (lead rest : string) :
  Str.all Char.is_space lead = true ->
  Re.word_after (Re.Pos None rest) = true ->
  (forall pv, exists q, In q (Re.run x (Re.Pos pv rest))) ->
  Re.search (Re.Seq Re.WordB x) (lead ++ rest) = true.
Proof.
  intros Al Hfirst Hx.
  apply search_from_skip. unfold Re.match_at.
  set (p := Re.Pos (last_prev None lead) rest).
  destruct (Hx (last_prev None lead)) as (q & Hq).
  assert (Hin : In q (Re.run (Re.Seq Re.WordB x) p)).
  { apply <- in_run_seq. exists p. split; [|exact Hq].
    apply in_run_guard. split; auto.
    unfold Re.at_boundary, p. rewrite word_before_spaces by assumption.
    exact Hfirst. }
  destruct (Re.run _ p); [destruct Hin | reflexivity].
Qed.

Lemma run_seq_reads (a b : Re.t) (w rest : string) (pv : option ascii)
    (q : Re.pos) :
  reads a w ->
  In q (Re.run b (Re.Pos (last_prev pv w) rest)) ->
  In q (Re.run (Re.Seq a b) (Re.Pos pv (w ++ rest))).
Proof.
  intros Ha Hb. apply <- in_run_seq. eauto.
Qed.

(** The closing [\b] after a word character, before spaces or the end. *)
Lemma run_closing_boundary (c : ascii) (trail : string) :
  Char.is_word c = true ->
  Str.all Char.is_space trail = true ->
  In (Re.Pos (Some c) trail) (Re.run (Re.cat [Re.WordB]) (Re.Pos (Some c) trail)).
Proof.
  intros Hc At.
  change (Re.cat [Re.WordB]) with (Re.Seq Re.WordB Re.Eps).
  apply <- in_run_seq. exists (Re.Pos (Some c) trail). split; [|now left].
  apply in_run_guard. split; auto.
  unfold Re.at_boundary. rewrite word_after_spaces by assumption.
  unfold Re.word_before. simpl. now rewrite Hc.
Qed.

Lemma last_digit (w : string) (pv : option ascii) :
  w <> "" -> Str.all Char.is_digit w = true ->
  exists c, last_prev pv w = Some c /\ Char.is_word c = true.
Proof.
  intros Hne A. destruct (last_prev_class _ _ Hne A pv) as (c & E & Hc).
  exists c. split; auto. now apply digit_is_word.
Qed.

Lemma digits_nonempty (n : nat) (w : string) :
  String.length w = S n -> w <> "".
Proof. intros L ->. discriminate. Qed.

Lemma phone_text_found (s : string) :
  Re.fullmatch PersonalInfoFinder.phone_re (Str.strip s) = true ->
  Re.search PIIDetector.phone_pattern s = true.
Proof.
  intros H. apply phone_re_accepts in H. destruct H as [L A].
  destruct (strip_cut s) as (lead & trail & Es & Al & At).
  rewrite Es at 1.
  change PIIDetector.phone_pattern
    with (Re.Seq Re.WordB (Re.Seq (Re.Rep 10 digit) (Re.cat [Re.WordB]))).
  pose proof (digits_nonempty _ _ L) as Hne.
  apply search_after_spaces; auto.
  - destruct (Str.strip s) as [|c t]; [congruence|]. simpl in A.
    apply andb_true_iff in A. unfold Re.word_after. simpl.
    now apply digit_is_word.
  - intros pv. destruct (last_digit _ pv Hne A) as (c & E & Hc).
    exists (Re.Pos (Some c) trail).
    apply run_seq_reads; [rewrite <- L; now apply reads_rep|].
    rewrite E. now apply run_closing_boundary.
Qed.

Lemma passport_text_found (s : string) :
  Re.fullmatch PersonalInfoFinder.passport_re (Str.strip s) = true ->
  Re.search PIIDetector.passport_pattern s = true.
Proof.
  intros H. apply passport_re_accepts in H.
  destruct H as (c & ds & E & Hc & L & A).
  destruct (strip_cut s) as (lead & trail & Es & Al & At).
  rewrite Es at 1. rewrite E.
  change PIIDetector.passport_pattern
    with (Re.Seq Re.WordB
            (Re.Seq upper_az (Re.Seq (Re.Rep 7 digit) (Re.cat [Re.WordB])))).
  pose proof (digits_nonempty _ _ L) as Hne.
  apply search_after_spaces; auto.
  - unfold Re.word_after. simpl. now apply upper_is_word.
  - intros pv. destruct (last_digit _ (Some c) Hne A) as (x & Ex & Hx).
    exists (Re.Pos (Some x) trail).
    change (String c ds ++ trail) with (String c "" ++ (ds ++ trail)).
    apply run_seq_reads; [now apply reads_chr|].
    apply run_seq_reads; [rewrite <- L; now apply reads_rep|].
    simpl. rewrite Ex. now apply run_closing_boundary.
Qed.

Lemma space_or_none_spaces (w : string) :
  space_or_none w -> Str.all Char.is_space w = true.
Proof. intros [-> | (c & Hc & ->)]; simpl; auto. now rewrite Hc. Qed.

Lemma aadhar_text_found (s : string) :
  Re.fullmatch PersonalInfoFinder.aadhar_re (Str.strip s) = true ->
  Re.search PIIDetector.aadhar_pattern s = true.
Proof.
  intros H. apply aadhar_re_accepts in H.
  destruct H as (g1 & s1 & g2 & s2 & g3 & E & [L1 A1] & [L2 A2] & [L3 A3] & S1 & S2).
  destruct (strip_cut s) as (lead & trail & Es & Al & At).
  rewrite Es at 1. rewrite E.
  change PIIDetector.aadhar_pattern
    with (Re.Seq Re.WordB
            (Re.Seq (Re.Rep 4 digit)
               (Re.Seq (Re.Star space)
                  (Re.Seq (Re.Rep 4 digit)
                     (Re.Seq (Re.Star space)
                        (Re.Seq (Re.Rep 4 digit) (Re.cat [Re.WordB]))))))).
  pose proof (digits_nonempty _ _ L1) as N1.
  pose proof (digits_nonempty _ _ L3) as N3.
  apply search_after_spaces; auto.
  - destruct g1 as [|c t]; [congruence|]. simpl in A1.
    apply andb_true_iff in A1. unfold Re.word_after. simpl.
    now apply digit_is_word.
  - intros pv.
    destruct (last_digit g3
                (last_prev (last_prev (last_prev (last_prev pv g1) s1) g2) s2)
                N3 A3) as (x & Ex & Hx).
    exists (Re.Pos (Some x) trail).
    rewrite !str_app_assoc.
    apply run_seq_reads; [rewrite <- L1; now apply reads_rep|].
    apply run_seq_reads; [now apply reads_star, space_or_none_spaces|].
    apply run_seq_reads; [rewrite <- L2; now apply reads_rep|].
    apply run_seq_reads; [now apply reads_star, space_or_none_spaces|].
    apply run_seq_reads; [rewrite <- L3; now apply reads_rep|].
    rewrite Ex. now apply run_closing_boundary.
Qed.

(** What [PersonalInfoFinder] flags by its phone, national-ID or passport
    pattern, [PIIDetector] flags too: a match of the trimmed text by the
    anchored pattern is found in the untrimmed text by the pattern between
    word boundaries. *)
Theorem finder_patterns_found_by_detector (r : record) (field : string)
    (v : value) :
  Dict.wf r ->
  In (field, v) r ->
  truthy v = true ->
  Re.fullmatch PersonalInfoFinder.phone_re (Str.strip (py_str v)) = true
  \/ Re.fullmatch PersonalInfoFinder.aadhar_re (Str.strip (py_str v)) = true
  \/ Re.fullmatch PersonalInfoFinder.passport_re (Str.strip (py_str v)) = true ->
  Dict.get field (PersonalInfoFinder.check_single r) = Some true
  /\ Dict.get field (PIIDetector.detect_standalone_pii r) = Some true.
Proof.
  intros Hwf Hin Ht H. split.
  - rewrite check_single_get, (get_member _ _ _ Hwf Hin) by assumption.
    unfold PersonalInfoFinder.check_field. rewrite Ht. cbn [negb].
    destruct H as [-> | [-> | ->]];
      repeat match goal with
             | |- context [Re.fullmatch ?p ?t] => destruct (Re.fullmatch p t)
             end;
      rewrite ?orb_true_r; try reflexivity;
      repeat match goal with
             | |- context [if ?b then _ else _] => destruct b
             end; reflexivity.
  - rewrite detect_standalone_pii_get, (get_member _ _ _ Hwf Hin) by assumption.
    unfold PIIDetector.standalone_field.
    assert (is_none v = false) as -> by (destruct v; simpl in *; congruence).
    destruct H as [H | [H | H]];
      [apply phone_text_found in H | apply aadhar_text_found in H
       | apply passport_text_found in H];
      rewrite H, ?orb_true_r;
      repeat match goal with
             | |- context [if ?b then _ else _] => destruct b
             end; reflexivity.
Qed.

Lemma finder_patterns_found_by_detector_witness :
  Dict.get "note" (PersonalInfoFinder.check_single [("note", VStr " 1234 56789012 ")])
  = Some true
  /\ Dict.get "note" (PIIDetector.detect_standalone_pii [("note", VStr " 1234 56789012 ")])
     = Some true.
Proof.
  apply (finder_patterns_found_by_detector
           [("note", VStr " 1234 56789012 ")] "note" (VStr " 1234 56789012 ")).
  - apply wf_singleton.
  - simpl. auto.
  - reflexivity.
  - right. left. reflexivity.
Defined.

(** ** Around the engine: the JSON text and the output path *)

Lemma lstrip_id (s : string) :
  (forall c s', s = String c s' -> Char.is_space c = false) ->
  Str.lstrip s = s.
Proof.
  destruct s as [|c s]; simpl; auto. intros H.
  now rewrite (H c s eq_refl).
Qed.

Lemma rstrip_app_nonspace (w : string) (c : ascii) :
  Char.is_space c = false -> Str.rstrip (w ++ String c "") = w ++ String c "".
Proof.
  intros Hc. induction w as [|d w IH]; simpl.
  - now rewrite Hc.
  - rewrite IH. destruct w; reflexivity.
Qed.

Lemma strip_csv_quote (j : string) : Str.strip (csv_quote j) = csv_quote j.
Proof.
  unfold Str.strip, csv_quote.
  rewrite lstrip_id by (intros c s' [= <- _]; reflexivity).
  change (String dquote (double_quotes j ++ String dquote ""))
    with (String dquote (double_quotes j) ++ String dquote "").
  now apply rstrip_app_nonspace.
Qed.

Lemma take_app_exact (w s : string) : Str.take (String.length w) (w ++ s) = w.
Proof. induction w as [|c w IH]; simpl; [now destruct s | now rewrite IH]. Qed.

Lemma ends_with_app (w : string) (c d : ascii) :
  ends_with c (w ++ String d "") = Ascii.eqb d c.
Proof.
  induction w as [|x w IH]; simpl; auto.
  rewrite IH. destruct w; reflexivity.
Qed.

Lemma slice_csv_quote (j : string) : slice_1_m1 (csv_quote j) = double_quotes j.
Proof.
  unfold slice_1_m1, csv_quote. simpl Str.drop.
  replace (String.length (String dquote (double_quotes j ++ String dquote "")) - 2)
    with (String.length (double_quotes j)).
  - apply take_app_exact.
  - simpl. rewrite str_length_app. simpl. lia.
Qed.

(** Replacing the doubled quotes undoes the doubling. *)
Lemma replace_double_quotes (j : string) :
  replace (String dquote (String dquote "")) (String dquote "") (double_quotes j)
  = j.
Proof.
  unfold replace. induction j as [|c j IH]; [reflexivity|].
  cbn [double_quotes]. destruct (Ascii.eqb c dquote) eqn:E.
  - apply Ascii.eqb_eq in E. subst c.
    cbn [replace_from has_prefix]. rewrite !Ascii.eqb_refl.
    cbn [andb append String.length Nat.sub replace_from]. now rewrite IH.
  - cbn [replace_from has_prefix]. rewrite Ascii.eqb_sym, E.
    cbn [andb]. now rewrite IH.
Qed.

(** Both scripts recover a JSON text from its CSV-quoted form: the outer
    quotes are removed and every doubled quote becomes one.  [process_csv]
    returns the text itself when it is wrapped in braces. *)
Theorem json_text_unquoted (j : string) :
  process_file_json_text (csv_quote j) = Some j
  /\ (starts_with "{" j = true -> ends_with "}" j = true ->
      process_csv_json_text (csv_quote j) = Some j).
Proof.
  assert (Hq : starts_with dquote (csv_quote j) && ends_with dquote (csv_quote j)
               = true).
  { unfold csv_quote. simpl starts_with.
    change (String dquote (double_quotes j ++ String dquote ""))
      with (String dquote (double_quotes j) ++ String dquote "").
    now rewrite ends_with_app. }
  split.
  - unfold process_file_json_text. rewrite strip_csv_quote, Hq.
    cbn [String.eqb csv_quote]. now rewrite slice_csv_quote, replace_double_quotes.
  - intros Hs He. unfold process_csv_json_text.
    rewrite strip_csv_quote, Hq. cbn [String.eqb csv_quote].
    rewrite slice_csv_quote, replace_double_quotes, Hs. cbn [negb].
    now rewrite He.
Qed.

Lemma json_text_unquoted_witness :
  process_csv_json_text (csv_quote "{}") = Some "{}".
Proof.
  apply (proj2 (json_text_unquoted "{}")); reflexivity.
Defined.

Lemma starts_with_app (c : ascii) (s t : string) :
  starts_with c s = true -> starts_with c (s ++ t) = true.
Proof. destruct s; simpl; [discriminate | auto]. Qed.

Lemma ends_with_cons (c d : ascii) (s : string) :
  ends_with c s = true -> ends_with c (String d s) = true.
Proof. destruct s; simpl; [discriminate | auto]. Qed.

(** Whatever the cell holds, the text [process_csv] gives to [json.loads]
    begins with an opening brace and ends with a closing one. *)
Theorem process_csv_text_in_braces (cell text : string) :
  process_csv_json_text cell = Some text ->
  starts_with "{" text = true /\ ends_with "}" text = true.
Proof.
  unfold process_csv_json_text. destruct (cell =? ""); [discriminate|].
  set (s := replace _ _ _).
  set (t := if negb (starts_with "{" s) then "{" ++ s else s).
  assert (Ht : starts_with "{" t = true).
  { subst t. destruct (starts_with "{" s) eqn:Hs; cbn [negb]; auto. }
  intros [= <-].
  destruct (ends_with "}" t) eqn:He; cbn [negb]; [auto|].
  split; [now apply starts_with_app | apply (ends_with_app t "}" "}")].
Qed.

Lemma process_csv_text_in_braces_witness :
  starts_with "{" "{phone: 1}" = true /\ ends_with "}" "{phone: 1}" = true.
Proof.
  apply (process_csv_text_in_braces " phone: 1" "{phone: 1}"). reflexivity.
Defined.

Lemma replace_absent (old new s : string) :
  occurs old s = false -> replace old new s = s.
Proof.
  unfold replace. induction s as [|c s IH]; auto.
  cbn [occurs replace_from]. intros H.
  apply orb_false_iff in H. destruct H as [Hp Hs].
  rewrite Hp, IH; auto.
Qed.

Lemma replace_from_skip_all (old new s : string) (k : nat) :
  String.length s <= k -> replace_from old new k s = "".
Proof.
  revert k. induction s as [|c s IH]; intros k L; auto.
  simpl in *. destruct k as [|k]; [lia|]. apply IH. lia.
Qed.

(** The output path: an input path without [.csv] is its own output path,
    so the output is written over the input; a path that ends with [.csv],
    its only occurrence, gets [_redacted] before it. *)
Theorem output_name_cases (input_file base : string) :
  (occurs ".csv" input_file = false -> output_name input_file = input_file)
  /\ (occurs ".csv" (base ++ ".cs") = false ->
      output_name (base ++ ".csv") = base ++ "_redacted.csv").
Proof.
  split; [apply replace_absent|].
  unfold output_name, replace.
  induction base as [|c base IH].
  - intros _. reflexivity.
  - cbn [append occurs]. intros H.
    apply orb_false_iff in H. destruct H as [Hp Hs].
    cbn [replace_from].
    assert (has_prefix ".csv" (String c (base ++ ".csv")) = false) as ->.
    { destruct (has_prefix ".csv" (String c (base ++ ".csv"))) eqn:E; auto.
      exfalso. revert Hp E. clear.
      destruct base as [|b1 [|b2 [|b3 base]]]; simpl;
        repeat match goal with
               | |- context [Ascii.eqb ?a ?b] =>
                   destruct (Ascii.eqb_spec a b); try subst; simpl
               end; congruence. }
    now rewrite (IH Hs).
Qed.

Lemma output_name_cases_witness :
  output_name "orders.csv" = "orders_redacted.csv".
Proof.
  apply (proj2 (output_name_cases "" "orders")). reflexivity.
Defined.

(** ** More masks of [hide_value] *)

Lemma last_app_exact (n : nat) (a b : string) :
  String.length b = n -> Str.last n (a ++ b) = b.
Proof.
  intros L. unfold Str.last. rewrite str_length_app, L.
  replace (String.length a + n - n) with (String.length a) by lia.
  clear L. induction a as [|c a IH]; simpl; auto.
Qed.

Lemma aadhar_text_not_phone (text : string) :
  Re.fullmatch PersonalInfoFinder.aadhar_re text = true ->
  Re.fullmatch PersonalInfoFinder.phone_re text = false.
Proof.
  intros H. apply aadhar_re_accepts in H.
  destruct H as (g1 & s1 & g2 & s2 & g3 & -> & [L1 _] & [L2 _] & [L3 _] & _).
  destruct (Re.fullmatch PersonalInfoFinder.phone_re _) eqn:E; auto.
  apply phone_re_accepts in E. destruct E as [L _].
  rewrite !str_length_app in L. lia.
Qed.

(** The national-ID mask of [hide_value]: a text the pattern accepts,
    under a field not named [phone], becomes [XXXX XXXX ] and its last
    group of four digits. *)
Theorem aadhar_mask_shape (field : string) (v : value) (g1 s1 g2 s2 g3 : string) :
  truthy v = true ->
  field <> "phone" ->
  Str.strip (py_str v) = g1 ++ s1 ++ g2 ++ s2 ++ g3 ->
  digits 4 g1 -> digits 4 g2 -> digits 4 g3 ->
  space_or_none s1 -> space_or_none s2 ->
  PersonalInfoHider.hide_value field v = Ok (VStr ("XXXX XXXX " ++ g3)).
Proof.
  intros Ht Hf E D1 D2 D3 S1 S2.
  assert (Ha : Re.fullmatch PersonalInfoFinder.aadhar_re (Str.strip (py_str v))
               = true).
  { apply aadhar_re_accepts. exists g1, s1, g2, s2, g3. auto 10. }
  pose proof (aadhar_text_not_phone _ Ha) as Hp.
  unfold PersonalInfoHider.hide_value. rewrite Ht. cbn [negb].
  apply String.eqb_neq in Hf. rewrite Hf, Hp, Ha, orb_true_r. cbn [orb].
  rewrite E, <- !str_app_assoc. destruct D3 as [L3 _].
  now rewrite (last_app_exact 4 _ g3 L3).
Qed.

Lemma aadhar_mask_shape_witness :
  PersonalInfoHider.hide_value "id" (VStr "1234 5678 9012")
  = Ok (VStr ("XXXX XXXX " ++ "9012")).
Proof.
  apply (aadhar_mask_shape "id" (VStr "1234 5678 9012")
           "1234" " " "5678" " " "9012");
    try reflexivity; try discriminate; try (split; reflexivity).
  - right. exists " "%char. split; reflexivity.
  - right. exists " "%char. split; reflexivity.
Defined.




(** The name mask of [hide_value]: a [name], [first_name] or [last_name]
    whose trimmed text is not empty, has no [@] and is neither a phone nor
    a national-ID number keeps its first character and its length; every
    other character becomes [X]. *)
Theorem name_mask_shape (field : string) (v : value) (c : ascii) (rest : string) :
  truthy v = true ->
  Str.mem field PersonalInfoFinder.names = true ->
  Str.strip (py_str v) = String c rest ->
  Str.contains "@" (String c rest) = false ->
  Re.fullmatch PersonalInfoFinder.phone_re (String c rest) = false ->
  Re.fullmatch PersonalInfoFinder.aadhar_re (String c rest) = false ->
  exists xs,
    PersonalInfoHider.hide_value field v = Ok (VStr (String c xs))
    /\ String.length xs = String.length rest
    /\ Str.all (Ascii.eqb "X") xs = true.
Proof.
  intros Ht Hf E Hat Hp Ha.
  exists (Str.repeat "X" (Str.len_minus (String c rest) 1)).
  split; [|split].
  - unfold PersonalInfoHider.hide_value. rewrite Ht. cbn [negb].
    rewrite E, Hp, Ha, Hat.
    assert (Hm : Re.fullmatch PersonalInfoFinder.email_re (String c rest) = false).
    { destruct (Re.fullmatch PersonalInfoFinder.email_re _) eqn:Em; auto.
      apply email_re_has_at in Em. congruence. }
    rewrite Hm.
    destruct (name_field_cases _ Hf) as [-> | [-> | ->]]; reflexivity.
  - rewrite repeat_length. unfold Str.len_minus. simpl String.length. lia.
  - apply repeat_all.
Qed.

Lemma name_mask_shape_witness :
  exists xs,
    PersonalInfoHider.hide_value "name" (VStr "Asha Rao") = Ok (VStr (String "A" xs))
    /\ String.length xs = String.length "sha Rao"
    /\ Str.all (Ascii.eqb "X") xs = true.
Proof.
  apply (name_mask_shape "name" (VStr "Asha Rao") "A" "sha Rao"); reflexivity.
Defined.

(** ** Names of one word in [PIIDetector] *)

Lemma present_in (data : record) (k : string) :
  PIIDetector.present (record_get k data) = true ->
  exists v, In (k, v) data /\ detector_counts v = true.
Proof.
  unfold record_get, PIIDetector.present, detector_counts.
  destruct (Dict.get k data) as [v|] eqn:E; [|discriminate].
  intros H. apply andb_true_iff in H. destruct H as [Ht Hs].
  exists v. split; [now apply get_in|].
  rewrite Hs. destruct v; simpl in *; auto; discriminate.
Qed.

(** In [PIIDetector], a [name] field that is not blank satisfies the name
    group whatever it holds, a single word included; with two of
    [address], [city] and [pin_code] present the record is PII. *)
Theorem name_and_address_is_pii (data : record) (v : value) :
  In ("name", v) data ->
  v <> VNone ->
  Str.strip (py_str v) <> "" ->
  PIIDetector._is_complete_address data = true ->
  PIIDetector.detect_combinatorial_pii data = true
  /\ PIIDetector.detect_pii data = true.
Proof.
  intros Hin Hv Hs Ha.
  assert (Hc : PIIDetector.detect_combinatorial_pii data = true).
  { rewrite detect_combinatorial_two_groups.
    assert (Hn : has_group (detector_group_of data) "name" data = true).
    { unfold has_group. apply existsb_exists. exists ("name", v).
      split; auto. unfold detector_group_of, detector_counts.
      apply String.eqb_neq in Hs. rewrite Hs.
      destruct v; simpl; congruence. }
    assert (Hd : has_group (detector_group_of data) "address" data = true).
    { assert (exists k w, In (k, w) data /\ detector_counts w = true
                /\ Str.mem k ["address"; "city"; "pin_code"] = true)
        as (k & w & Hk & Hw & Hm).
      { unfold PIIDetector._is_complete_address in Ha.
        destruct (PIIDetector.present (record_get "address" data)) eqn:E1.
        - destruct (present_in _ _ E1) as (w & ? & ?). exists "address", w. auto.
        - destruct (PIIDetector.present (record_get "city" data)) eqn:E2.
          + destruct (present_in _ _ E2) as (w & ? & ?). exists "city", w. auto.
          + destruct (PIIDetector.present (record_get "pin_code" data));
              discriminate. }
      unfold has_group. apply existsb_exists. exists (k, w).
      split; auto. unfold detector_group_of. rewrite Hw, Ha. cbn [negb].
      simpl in Hm. rewrite orb_false_r in Hm.
      apply orb_true_iff in Hm. destruct Hm as [Hm | Hm];
        [|apply orb_true_iff in Hm; destruct Hm as [Hm | Hm]];
        apply String.eqb_eq in Hm; subst k; reflexivity. }
    rewrite Hn, Hd. unfold two_of_three.
    now destruct (has_group _ "email" data). }
  split; [exact Hc|].
  unfold PIIDetector.detect_pii. rewrite Hc.
  now destruct (any_value _).
Qed.

Lemma name_and_address_is_pii_witness :
  PIIDetector.detect_combinatorial_pii
    [("name", VStr "Asha"); ("city", VStr "Pune"); ("pin_code", VInt 411001)]
  = true
  /\ PIIDetector.detect_pii
       [("name", VStr "Asha"); ("city", VStr "Pune"); ("pin_code", VInt 411001)]
     = true.
Proof.
  apply (name_and_address_is_pii
           [("name", VStr "Asha"); ("city", VStr "Pune"); ("pin_code", VInt 411001)]
           (VStr "Asha")).
  - simpl. auto.
  - discriminate.
  - discriminate.
  - reflexivity.
Defined.

(** ** Where the two scripts agree *)

Lemma named_field_cases (field : string) :
  Str.mem field ["phone"; "aadhar"; "passport"] = true ->
  field = "phone" \/ field = "aadhar" \/ field = "passport".
Proof.
  simpl. rewrite orb_false_r. intros H.
  apply orb_true_iff in H. destruct H as [H | H].
  - apply String.eqb_eq in H. auto.
  - apply orb_true_iff in H. destruct H as [H | H];
      apply String.eqb_eq in H; auto.
Qed.

(** C8 (amended): the two scripts are not the same function, but they agree
    in two places.  With a false flag, [hide_record] and [redact_record]
    both return the record as it is, for every record.  And where a truthy
    value that is not blank once trimmed stands under a field named [phone],
    [aadhar] or [passport], or has a trimmed text that the phone,
    national-ID or passport pattern of [PersonalInfoFinder] accepts, the
    field has a true standalone verdict in both scripts and both
    [detect_pii] return true. *)
Theorem scripts_agree (r : record) :
  (PersonalInfoHider.hide_record r false = Ok r
   /\ PIIRedactor.redact_record r false = Ok r)
  /\ forall field v,
       Dict.wf r ->
       In (field, v) r ->
       truthy v = true ->
       Str.strip (py_str v) <> "" ->
       Str.mem field ["phone"; "aadhar"; "passport"] = true
       \/ Re.fullmatch PersonalInfoFinder.phone_re (Str.strip (py_str v)) = true
       \/ Re.fullmatch PersonalInfoFinder.aadhar_re (Str.strip (py_str v)) = true
       \/ Re.fullmatch PersonalInfoFinder.passport_re (Str.strip (py_str v)) = true ->
       Dict.get field (PersonalInfoFinder.check_single r) = Some true
       /\ Dict.get field (PIIDetector.detect_standalone_pii r) = Some true
       /\ PersonalInfoFinder.detect_pii r = true
       /\ PIIDetector.detect_pii r = true.
Proof.
  split; [split; reflexivity|].
  intros field v Hwf Hin Ht _ Hrule.
  assert (Hn : is_none v = false) by (destruct v; simpl in *; congruence).
  assert (H1 : Dict.get field (PersonalInfoFinder.check_single r) = Some true).
  { rewrite check_single_get, (get_member _ _ _ Hwf Hin) by assumption.
    unfold PersonalInfoFinder.check_field. rewrite Ht. cbn [negb].
    destruct Hrule as [Hf | [-> | [-> | ->]]].
    - apply named_field_cases in Hf.
      repeat match goal with
             | |- context [Re.fullmatch ?p ?t] => destruct (Re.fullmatch p t)
             end;
        destruct Hf as [-> | [-> | ->]]; reflexivity.
    - now rewrite orb_true_r.
    - rewrite orb_true_r.
      now destruct ((field =? "phone") || Re.fullmatch PersonalInfoFinder.phone_re _).
    - rewrite orb_true_r.
      destruct ((field =? "phone") || Re.fullmatch PersonalInfoFinder.phone_re _);
        [reflexivity|].
      now destruct ((field =? "aadhar")
                    || Re.fullmatch PersonalInfoFinder.aadhar_re _). }
  assert (H2 : Dict.get field (PIIDetector.detect_standalone_pii r) = Some true).
  { rewrite detect_standalone_pii_get, (get_member _ _ _ Hwf Hin) by assumption.
    unfold PIIDetector.standalone_field. rewrite Hn.
    destruct Hrule as [Hf | [H | [H | H]]].
    - apply named_field_cases in Hf.
      repeat match goal with
             | |- context [Re.search ?p ?t] => destruct (Re.search p t)
             end;
        destruct Hf as [-> | [-> | ->]]; reflexivity.
    - apply phone_text_found in H. now rewrite H, orb_true_r.
    - apply aadhar_text_found in H. rewrite H, orb_true_r.
      now destruct ((field =? "phone") || Re.search PIIDetector.phone_pattern _).
    - apply passport_text_found in H. rewrite H, orb_true_r.
      destruct ((field =? "phone") || Re.search PIIDetector.phone_pattern _);
        [reflexivity|].
      now destruct ((field =? "aadhar") || Re.search PIIDetector.aadhar_pattern _). }
  unfold PersonalInfoFinder.detect_pii, PIIDetector.detect_pii.
  rewrite (any_value_get _ _ H1), (any_value_get _ _ H2). auto.
Qed.

Lemma scripts_agree_witness :
  (PersonalInfoHider.hide_record
     [("contact", VStr " 9876543210 "); ("passport", VStr "K7")] false
   = Ok [("contact", VStr " 9876543210 "); ("passport", VStr "K7")]
   /\ PIIRedactor.redact_record
        [("contact", VStr " 9876543210 "); ("passport", VStr "K7")] false
      = Ok [("contact", VStr " 9876543210 "); ("passport", VStr "K7")])
  /\ (Dict.get "contact"
        (PersonalInfoFinder.check_single
           [("contact", VStr " 9876543210 "); ("passport", VStr "K7")])
      = Some true
      /\ Dict.get "contact"
           (PIIDetector.detect_standalone_pii
              [("contact", VStr " 9876543210 "); ("passport", VStr "K7")])
         = Some true
      /\ PersonalInfoFinder.detect_pii
           [("contact", VStr " 9876543210 "); ("passport", VStr "K7")] = true
      /\ PIIDetector.detect_pii
           [("contact", VStr " 9876543210 "); ("passport", VStr "K7")] = true)
  /\ (Dict.get "passport"
        (PersonalInfoFinder.check_single
           [("contact", VStr " 9876543210 "); ("passport", VStr "K7")])
      = Some true
      /\ Dict.get "passport"
           (PIIDetector.detect_standalone_pii
              [("contact", VStr " 9876543210 "); ("passport", VStr "K7")])
         = Some true
      /\ PersonalInfoFinder.detect_pii
           [("contact", VStr " 9876543210 "); ("passport", VStr "K7")] = true
      /\ PIIDetector.detect_pii
           [("contact", VStr " 9876543210 "); ("passport", VStr "K7")] = true).
Proof.
  destruct (scripts_agree
              [("contact", VStr " 9876543210 "); ("passport", VStr "K7")])
    as [Hid Hdet].
  assert (Hwf : Dict.wf [("contact", VStr " 9876543210 "); ("passport", VStr "K7")]).
  { repeat constructor; simpl; intuition discriminate. }
  split; [exact Hid|]. split.
  - apply (Hdet "contact" (VStr " 9876543210 ") Hwf).
    + simpl. auto.
    + reflexivity.
    + vm_compute. discriminate.
    + right. left. reflexivity.
  - apply (Hdet "passport" (VStr "K7") Hwf).
    + simpl. auto.
    + reflexivity.
    + vm_compute. discriminate.
    + left. reflexivity.
Defined.
